(** * nameh: the generation / revision workflow of App.tsx and geminiservice.ts

    The development embeds the React component [App] and the two service
    functions [generateDocument] and [reviseDocument].

    - JavaScript strings are sequences of UTF-16 code units.
    - An [async] function is a [Task]: a tree of state updates that is
      suspended at the one place where the code awaits the network.
    - A handler is built from the values of the render in which it was
      created (its closure); the updates it issues are applied to the
      state current at the time they run.  A suspended handler therefore
      keeps reading the values of an old render. *)

From Stdlib Require Import String Ascii DecimalString.
From Stdlib Require Import List NArith Bool Arith Lia.
Import ListNotations.

Set Implicit Arguments.

(* ------------------------------------------------------------------ *)
(** ** Engine level: strings, truthiness, arrays *)

Module JS.

(** A string value: its UTF-16 code units. *)
Definition jsstring := list N.

Definition bytes_of (s : string) : list N :=
  map N_of_ascii (list_ascii_of_string s).

(** Source text is UTF-8; the engine holds literals as UTF-16.  Bytes
    that do not form a well-formed sequence are kept as they are. *)
Fixpoint utf16_of_bytes (bs : list N) : jsstring :=
  match bs with
  | [] => []
  | b0 :: t0 =>
      if (b0 <? 128)%N then b0 :: utf16_of_bytes t0
      else if (b0 <? 224)%N then
        match t0 with
        | b1 :: t1 => ((b0 - 192) * 64 + (b1 - 128))%N :: utf16_of_bytes t1
        | [] => [b0]
        end
      else if (b0 <? 240)%N then
        match t0 with
        | b1 :: b2 :: t2 =>
            ((b0 - 224) * 4096 + (b1 - 128) * 64 + (b2 - 128))%N
              :: utf16_of_bytes t2
        | _ => b0 :: utf16_of_bytes t0
        end
      else
        match t0 with
        | b1 :: b2 :: b3 :: t3 =>
            let cp := ((b0 - 240) * 262144 + (b1 - 128) * 4096
                       + (b2 - 128) * 64 + (b3 - 128))%N in
            let v := (cp - 65536)%N in
            (55296 + v / 1024)%N :: (56320 + v mod 1024)%N
              :: utf16_of_bytes t3
        | _ => b0 :: utf16_of_bytes t0
        end
  end.

Definition lit (s : string) : jsstring := utf16_of_bytes (bytes_of s).

Definition eqb (s t : jsstring) : bool :=
  if list_eq_dec N.eq_dec s t then true else false.

(** [ToBoolean] on a string: only the empty string is falsy. *)
Definition truthy (s : jsstring) : bool :=
  match s with [] => false | _ :: _ => true end.

(** [ToBoolean] on [string | null | undefined]. *)
Definition truthy_opt (v : option jsstring) : bool :=
  match v with Some s => truthy s | None => false end.

(** [a || d] where [a] is [string | undefined] and [d] a string. *)
Definition or_else (a : option jsstring) (d : jsstring) : jsstring :=
  match a with
  | Some s => if truthy s then s else d
  | None => d
  end.

(** WhiteSpace and LineTerminator code points, the set that
    [String.prototype.trim] strips. *)
Definition is_space (c : N) : bool :=
  ((c =? 9) || (c =? 10) || (c =? 11) || (c =? 12) || (c =? 13)
   || (c =? 32) || (c =? 160) || (c =? 5760)
   || ((8192 <=? c) && (c <=? 8202))
   || (c =? 8232) || (c =? 8233) || (c =? 8239) || (c =? 8287)
   || (c =? 12288) || (c =? 65279))%N.

Fixpoint trimStart (s : jsstring) : jsstring :=
  match s with
  | c :: t => if is_space c then trimStart t else s
  | [] => []
  end.

Definition trimEnd (s : jsstring) : jsstring := rev (trimStart (rev s)).

Definition trim (s : jsstring) : jsstring := trimEnd (trimStart s).

(** [s.substring(0, n)]. *)
Definition substring0 (n : nat) (s : jsstring) : jsstring := firstn n s.

(** [Number.prototype.toString] on a non-negative integer. *)
Definition of_N (n : N) : jsstring :=
  bytes_of (DecimalString.NilZero.string_of_uint (N.to_uint n)).

(** [a[i]] on an array whose slots may hold [undefined]. *)
Definition array_get (A : Type) (l : list (option A)) (i : nat) : option A :=
  match nth_error l i with
  | Some v => v
  | None => None
  end.

(** [a[i] = v]: inside the array the slot is replaced; beyond its end
    the array grows and the slots in between read as [undefined]. *)
Fixpoint array_set (A : Type) (l : list (option A)) (i : nat) (v : A)
  : list (option A) :=
  match i, l with
  | O, [] => [Some v]
  | O, _ :: t => Some v :: t
  | S j, [] => None :: array_set [] j v
  | S j, x :: t => x :: array_set t j v
  end.

End JS.

Import JS.

Arguments lit : simpl never.
Arguments trim : simpl never.
Arguments of_N : simpl never.
Arguments or_else : simpl never.
Arguments substring0 : simpl never.
#[local] Arguments firstn : simpl never.

(* ------------------------------------------------------------------ *)
(** ** types.ts *)

Inductive DocumentType := LETTER | MINUTES.

(** [results] is declared [string[]]; a slot reads [undefined] ([None])
    once an assignment past the end has made the array grow.  [error] and
    [type] are [null] ([None]) or a value. *)
Record GenerationState := {
  isLoading : bool;
  error : option jsstring;
  results : list (option jsstring);
  selectedIndex : nat;
  type : option DocumentType
}.

(** [itemId] and [itemType] are the fields [id] and [type].
    [generatedText] is what [results[0]] read when the item was made. *)
Record HistoryItem := {
  itemId : jsstring;
  originalText : jsstring;
  generatedText : option jsstring;
  itemType : DocumentType;
  timestamp : N
}.

Record SavedData := {
  recipients : list jsstring;
  subjects : list jsstring
}.

Record DocumentInputs := {
  recipientName : jsstring;
  recipientRole : jsstring;
  subject : jsstring;
  body : jsstring
}.

(* ------------------------------------------------------------------ *)
(** ** The state held by the component (the [useState] cells of App) *)

Record App := {
  inputs : DocumentInputs;
  savedData : SavedData;
  state : GenerationState;
  copied : bool;
  history : list HistoryItem;
  feedbackText : jsstring;
  isRevising : bool;
  previousVersion : option jsstring;
  showFeedbackInput : bool
}.

Definition initialInputs : DocumentInputs :=
  {| recipientName := []; recipientRole := []; subject := []; body := [] |}.

Definition initialState : GenerationState :=
  {| isLoading := false; error := None; results := [];
     selectedIndex := 0; type := None |}.

Definition initialApp : App :=
  {| inputs := initialInputs;
     savedData := {| recipients := []; subjects := [] |};
     state := initialState;
     copied := false;
     history := [];
     feedbackText := [];
     isRevising := false;
     previousVersion := None;
     showFeedbackInput := false |}.

(** The setters returned by [useState].  A setter called with a value is
    the setter called with the constant function. *)
Inductive Update :=
| setInputs (f : DocumentInputs -> DocumentInputs)
| setSavedData (f : SavedData -> SavedData)
| setState (f : GenerationState -> GenerationState)
| setCopied (b : bool)
| setHistory (f : list HistoryItem -> list HistoryItem)
| setFeedbackText (v : jsstring)
| setIsRevising (b : bool)
| setPreviousVersion (v : option jsstring)
| setShowFeedbackInput (b : bool).

Definition apply (u : Update) (a : App) : App :=
  match u with
  | setInputs f =>
      Build_App (f (inputs a)) (savedData a) (state a) (copied a) (history a)
        (feedbackText a) (isRevising a) (previousVersion a) (showFeedbackInput a)
  | setSavedData f =>
      Build_App (inputs a) (f (savedData a)) (state a) (copied a) (history a)
        (feedbackText a) (isRevising a) (previousVersion a) (showFeedbackInput a)
  | setState f =>
      Build_App (inputs a) (savedData a) (f (state a)) (copied a) (history a)
        (feedbackText a) (isRevising a) (previousVersion a) (showFeedbackInput a)
  | setCopied b =>
      Build_App (inputs a) (savedData a) (state a) b (history a)
        (feedbackText a) (isRevising a) (previousVersion a) (showFeedbackInput a)
  | setHistory f =>
      Build_App (inputs a) (savedData a) (state a) (copied a) (f (history a))
        (feedbackText a) (isRevising a) (previousVersion a) (showFeedbackInput a)
  | setFeedbackText v =>
      Build_App (inputs a) (savedData a) (state a) (copied a) (history a)
        v (isRevising a) (previousVersion a) (showFeedbackInput a)
  | setIsRevising b =>
      Build_App (inputs a) (savedData a) (state a) (copied a) (history a)
        (feedbackText a) b (previousVersion a) (showFeedbackInput a)
  | setPreviousVersion v =>
      Build_App (inputs a) (savedData a) (state a) (copied a) (history a)
        (feedbackText a) (isRevising a) v (showFeedbackInput a)
  | setShowFeedbackInput b =>
      Build_App (inputs a) (savedData a) (state a) (copied a) (history a)
        (feedbackText a) (isRevising a) (previousVersion a) b
  end.

(* ------------------------------------------------------------------ *)
(** ** Asynchronous code *)

(** A thrown value, seen through its [message] property. *)
Record JsError := { message : option jsstring }.

(** [new Error(m)]. *)
Definition Error (m : jsstring) : JsError := {| message := Some m |}.

(** The prompt of a request, by the values rendered into its template. *)
Inductive Prompt :=
| GenerationPrompt (ty : DocumentType) (inputContext : list jsstring)
| RevisionPrompt (ty : DocumentType) (currentDraft feedback : jsstring).

(** One call of [ai.models.generateContent]. *)
Record Request := {
  contents : Prompt;
  systemInstruction : DocumentType;
  temperature_tenths : N;
  responseMimeType_json : bool
}.

(** How the call settles: the promise resolves with a response, of which
    the code reads [text], or it rejects. *)
Inductive NetReply :=
| Resolved (text : option jsstring)
| Rejected (e : JsError).

(** An asynchronous computation: it returns, throws, calls a setter,
    reads [Date.now()], or awaits the reply to a request. *)
Inductive Task (A : Type) : Type :=
| Ret (a : A)
| Throw (e : JsError)
| Upd (u : Update) (k : Task A)
| Clock (k : N -> Task A)
| Await (rq : Request) (k : NetReply -> Task A).

Arguments Ret {A} a.
Arguments Throw {A} e.
Arguments Upd {A} u k.
Arguments Clock {A} k.
Arguments Await {A} rq k.

Fixpoint bind (A B : Type) (t : Task A) (f : A -> Task B) : Task B :=
  match t with
  | Ret a => f a
  | Throw e => Throw e
  | Upd u k => Upd u (bind k f)
  | Clock k => Clock (fun n => bind (k n) f)
  | Await rq k => Await rq (fun r => bind (k r) f)
  end.

(** [try { t } catch (e) { h e }]. *)
Fixpoint try_catch (A : Type) (t : Task A) (h : JsError -> Task A) : Task A :=
  match t with
  | Ret a => Ret a
  | Throw e => h e
  | Upd u k => Upd u (try_catch k h)
  | Clock k => Clock (fun n => try_catch (k n) h)
  | Await rq k => Await rq (fun r => try_catch (k r) h)
  end.

(** [try { t } finally { f }], for a block [f] that does not throw. *)
Fixpoint try_finally (A : Type) (t : Task A) (f : Task unit) : Task A :=
  match t with
  | Ret a => bind f (fun _ => Ret a)
  | Throw e => bind f (fun _ => Throw e)
  | Upd u k => Upd u (try_finally k f)
  | Clock k => Clock (fun n => try_finally (k n) f)
  | Await rq k => Await rq (fun r => try_finally (k r) f)
  end.

Declare Scope task_scope.
Delimit Scope task_scope with task.
Bind Scope task_scope with Task.

Notation "x <- t ;; k" := (bind t (fun x => k))
  (at level 61, t at next level, right associativity) : task_scope.
Notation "t ;; k" := (bind t (fun _ => k))
  (at level 61, right associativity) : task_scope.

Definition set_ (u : Update) : Task unit := Upd u (Ret tt).

(** [await ai.models.generateContent(rq)]. *)
Definition generateContent (rq : Request) : Task (option jsstring) :=
  Await rq (fun r =>
    match r with
    | Resolved text => Ret text
    | Rejected e => Throw e
    end).

Open Scope task_scope.

(* ------------------------------------------------------------------ *)
(** ** geminiservice.ts *)

(** What [JSON.parse] hands back, as far as [generateDocument] looks at
    it: [Array.isArray], the length, and the elements, which the declared
    return type [Promise<string[]>] and the response schema make strings.
    The code does not check the elements; an array that holds anything
    else than strings is not represented here. *)
Inductive JsonValue :=
| JArray (elts : list jsstring)
| JOther.

(** A stand-in for the engine's parser, for running the code on examples:
    it reads an array of string literals without escapes, or one such
    literal; any other text is reported as a syntax error. *)
Module MockJSON.

Fixpoint skip_ws (s : jsstring) : jsstring :=
  match s with
  | c :: t =>
      if ((c =? 32) || (c =? 9) || (c =? 10) || (c =? 13))%N then skip_ws t
      else s
  | [] => []
  end.

Fixpoint read_string (s : jsstring) : option (jsstring * jsstring) :=
  match s with
  | [] => None
  | c :: t =>
      if (c =? 34)%N then Some ([], t)
      else if ((c =? 92) || (c <? 32))%N then None
      else
        match read_string t with
        | Some (str, rest) => Some (c :: str, rest)
        | None => None
        end
  end.

(** After an element: a comma and the next element, or the closing
    bracket. *)
Fixpoint read_more (fuel : nat) (s : jsstring)
  : option (list jsstring * jsstring) :=
  match fuel with
  | O => None
  | S fuel' =>
      match skip_ws s with
      | 93%N :: rest => Some ([], rest)
      | 44%N :: t =>
          match skip_ws t with
          | 34%N :: u =>
              match read_string u with
              | Some (str, rest) =>
                  match read_more fuel' rest with
                  | Some (l, rest') => Some (str :: l, rest')
                  | None => None
                  end
              | None => None
              end
          | _ => None
          end
      | _ => None
      end
  end.

Definition at_end (s : jsstring) : bool :=
  match skip_ws s with [] => true | _ => false end.

Definition parse (s : jsstring) : option JsonValue :=
  match skip_ws s with
  | 91%N :: t =>
      match skip_ws t with
      | 93%N :: rest => if at_end rest then Some (JArray []) else None
      | 34%N :: u =>
          match read_string u with
          | Some (str, rest) =>
              match read_more (length rest) rest with
              | Some (l, rest') =>
                  if at_end rest' then Some (JArray (str :: l)) else None
              | None => None
              end
          | None => None
          end
      | _ => None
      end
  | 34%N :: u =>
      match read_string u with
      | Some (_, rest) => if at_end rest then Some JOther else None
      | None => None
      end
  | _ => None
  end.

(** The text of an array of strings that need no escape. *)
Definition stringify (l : list jsstring) : jsstring :=
  let quoted := map (fun s => (34%N :: s) ++ [34%N]) l in
  let fix join (q : list jsstring) : jsstring :=
    match q with
    | [] => []
    | [s] => s
    | s :: t => s ++ 44%N :: join t
    end in
  (91%N :: join quoted) ++ [93%N].

End MockJSON.

Section Nameh.

(** [process.env.API_KEY], read once when the module is loaded. *)
Variable apiKey : option jsstring.

(** The engine's [JSON.parse]; [None] stands for a thrown SyntaxError. *)
Variable JSON_parse : jsstring -> option JsonValue.

Definition generation_request (inp : DocumentInputs) (ty : DocumentType)
  : Request :=
  let inputContext :=
    match ty with
    | LETTER =>
        [ or_else (Some (recipientName inp)) (lit "---");
          or_else (Some (recipientRole inp)) (lit "---");
          or_else (Some (subject inp)) (lit "---");
          body inp ]
    | MINUTES => [ body inp ]
    end in
  {| contents := GenerationPrompt ty inputContext;
     systemInstruction := ty;
     temperature_tenths := 7;
     responseMimeType_json := true |}.

Definition revision_request (currentDraft feedback : jsstring)
  (ty : DocumentType) : Request :=
  {| contents := RevisionPrompt ty currentDraft feedback;
     systemInstruction := ty;
     temperature_tenths := 5;
     responseMimeType_json := false |}.

Definition generateDocument (inp : DocumentInputs) (ty : DocumentType)
  : Task (list jsstring) :=
  if negb (truthy_opt apiKey) then
    Throw (Error (lit "تنظیمات API Key یافت نشد."))
  else
    try_catch
      (response <- generateContent (generation_request inp ty) ;;
       match response with
       | Some text =>
           if truthy text then
             match JSON_parse text with
             | Some (JArray parsed) =>
                 if (0 <? length parsed)%nat then Ret parsed
                 else Ret [text]
             | Some JOther => Ret [text]
             | None => Ret [text]
             end
           else
             Throw (Error (lit "پاسخی از مدل دریافت نشد. لطفاً مجدد تلاش کنید."))
       | None =>
           Throw (Error (lit "پاسخی از مدل دریافت نشد. لطفاً مجدد تلاش کنید."))
       end)
      (fun err =>
         Throw (Error (or_else (message err)
                  (lit "خطایی در برقراری ارتباط با هوش مصنوعی رخ داد.")))).

Definition reviseDocument (currentDraft feedback : jsstring)
  (ty : DocumentType) : Task jsstring :=
  if negb (truthy_opt apiKey) then
    Throw (Error (lit "تنظیمات API Key یافت نشد."))
  else
    try_catch
      (response <- generateContent (revision_request currentDraft feedback ty) ;;
       if truthy_opt response then
         match response with
         | Some text => Ret text
         | None => Throw (Error (lit "پاسخی از مدل دریافت نشد."))
         end
       else Throw (Error (lit "پاسخی از مدل دریافت نشد.")))
      (fun err =>
         Throw (Error (or_else (message err)
                  (lit "خطایی در ویرایش متن رخ داد.")))).

(* ---------------------------------------------------------------- *)
(** ** App.tsx: the handlers

    The argument [a] of a handler is the render it closes over. *)

Inductive SavedKind := Recipients | Subjects.

Inductive InputField := RecipientName | RecipientRole | Subject | Body.

Definition saved (k : SavedKind) (d : SavedData) : list jsstring :=
  match k with Recipients => recipients d | Subjects => subjects d end.

Definition with_saved (k : SavedKind) (d : SavedData) (l : list jsstring)
  : SavedData :=
  match k with
  | Recipients => {| recipients := l; subjects := subjects d |}
  | Subjects => {| recipients := recipients d; subjects := l |}
  end.

Definition with_field (f : InputField) (i : DocumentInputs) (v : jsstring)
  : DocumentInputs :=
  match f with
  | RecipientName => Build_DocumentInputs v (recipientRole i) (subject i) (body i)
  | RecipientRole => Build_DocumentInputs (recipientName i) v (subject i) (body i)
  | Subject => Build_DocumentInputs (recipientName i) (recipientRole i) v (body i)
  | Body => Build_DocumentInputs (recipientName i) (recipientRole i) (subject i) v
  end.

Definition with_results (s : GenerationState) (r : list (option jsstring))
  : GenerationState :=
  Build_GenerationState (isLoading s) (error s) r (selectedIndex s) (type s).

Definition with_error (s : GenerationState) (e : option jsstring)
  : GenerationState :=
  Build_GenerationState (isLoading s) e (results s) (selectedIndex s) (type s).

Definition with_selectedIndex (s : GenerationState) (i : nat)
  : GenerationState :=
  Build_GenerationState (isLoading s) (error s) (results s) i (type s).

(** [Array.prototype.includes] on strings. *)
Definition includes (l : list jsstring) (v : jsstring) : bool :=
  existsb (JS.eqb v) l.

Definition addToHistory (original : jsstring) (generated : option jsstring)
  (ty : DocumentType) : Task unit :=
  Clock (fun now =>
    let newItem :=
      {| itemId := of_N now;
         originalText := original;
         generatedText := generated;
         itemType := ty;
         timestamp := now |} in
    set_ (setHistory (fun prev => firstn 10 (newItem :: prev)))).

Definition handleInputChange (field : InputField) (value : jsstring)
  : Task unit :=
  set_ (setInputs (fun prev => with_field field prev value)).

Definition saveItem (a : App) (k : SavedKind) (value : jsstring) : Task unit :=
  if negb (truthy (trim value)) || includes (saved k (savedData a)) (trim value)
  then Ret tt
  else set_ (setSavedData (fun prev => with_saved k prev (saved k prev ++ [trim value]))).

Definition removeItem (k : SavedKind) (value : jsstring) : Task unit :=
  set_ (setSavedData (fun prev =>
    with_saved k prev (filter (fun item => negb (JS.eqb item value)) (saved k prev)))).

Definition loadingState (ty : DocumentType) : GenerationState :=
  {| isLoading := true; error := None; results := [];
     selectedIndex := 0; type := Some ty |}.

Definition handleGenerate (a : App) (ty : DocumentType) : Task unit :=
  if negb (truthy (trim (body (inputs a))))
     && negb (truthy (trim (subject (inputs a))))
  then Ret tt
  else
    set_ (setPreviousVersion None) ;;
    set_ (setShowFeedbackInput false) ;;
    set_ (setFeedbackText []) ;;
    set_ (setState (fun _ => loadingState ty)) ;;
    try_catch
      (res <- generateDocument (inputs a) ty ;;
       set_ (setState (fun _ =>
         {| isLoading := false; error := None; results := map Some res;
            selectedIndex := 0; type := Some ty |})) ;;
       let summaryText :=
         if truthy (subject (inputs a)) then subject (inputs a)
         else substring0 50 (body (inputs a)) ++ lit "..." in
       addToHistory summaryText (nth_error res 0) ty)
      (fun err =>
         set_ (setState (fun _ =>
           {| isLoading := false;
              error := Some (or_else (message err) (lit "خطایی رخ داده است"));
              results := [];
              selectedIndex := 0;
              type := None |}))).

Definition getCurrentResult (s : GenerationState) : option jsstring :=
  if (length (results s) =? 0)%nat then None
  else array_get (results s) (selectedIndex s).

Definition updateCurrentResult (a : App) (newText : jsstring) : Task unit :=
  let newResults :=
    array_set (results (state a)) (selectedIndex (state a)) newText in
  set_ (setState (fun prev => with_results prev newResults)).

Definition handleRevise (a : App) : Task unit :=
  match getCurrentResult (state a), type (state a) with
  | Some current, Some ty =>
      if truthy current && truthy (trim (feedbackText a)) then
        set_ (setIsRevising true) ;;
        set_ (setPreviousVersion (Some current)) ;;
        try_finally
          (try_catch
             (revisedResult <- reviseDocument current (feedbackText a) ty ;;
              updateCurrentResult a revisedResult ;;
              set_ (setFeedbackText []))
             (fun err =>
                set_ (setState (fun prev =>
                  with_error prev
                    (Some (or_else (message err) (lit "خطا در ویرایش متن")))))))
          (set_ (setIsRevising false))
      else Ret tt
  | _, _ => Ret tt
  end.

Definition handleAcceptRevision : Task unit :=
  set_ (setPreviousVersion None) ;;
  set_ (setShowFeedbackInput false) ;;
  set_ (setFeedbackText []).

Definition handleDiscardRevision (a : App) : Task unit :=
  match previousVersion a with
  | Some pv =>
      if truthy pv then
        updateCurrentResult a pv ;;
        set_ (setPreviousVersion None) ;;
        set_ (setFeedbackText [])
      else Ret tt
  | None => Ret tt
  end.

(** The clipboard write is outside the state; the timer that resets
    [copied] is the event [Timer_copied] below. *)
Definition handleCopy (a : App) : Task unit :=
  if truthy_opt (getCurrentResult (state a)) then set_ (setCopied true)
  else Ret tt.

(** The file name [handleDownloadWord] offers, when it offers one. *)
Definition handleDownloadWord (a : App) : option jsstring :=
  if truthy_opt (getCurrentResult (state a)) then
    Some (match type (state a) with
          | Some LETTER => lit "Letter.doc"
          | _ => lit "Minutes.doc"
          end)
  else None.

Definition loadFromHistory (item : HistoryItem) : Task unit :=
  set_ (setInputs (fun _ =>
    {| recipientName := []; recipientRole := []; subject := [];
       body := originalText item |})) ;;
  set_ (setState (fun _ =>
    {| isLoading := false; error := None;
       results := [generatedText item];
       selectedIndex := 0;
       type := Some (itemType item) |})) ;;
  set_ (setPreviousVersion None) ;;
  set_ (setShowFeedbackInput false).

Definition isFormValid (a : App) : bool :=
  (0 <? length (trim (body (inputs a))))%nat
  || (0 <? length (trim (subject (inputs a))))%nat.

(* ---------------------------------------------------------------- *)
(** ** The running page

    [pending] holds the handlers suspended at their [await], each as
    the function of the reply it waits for; [calls] logs the requests
    that were sent; [clock] is what [Date.now()] reads. *)

Record World := {
  app : App;
  pending : list (NetReply -> Task unit);
  calls : list Request;
  clock : N
}.

Definition with_app (w : World) (a : App) : World :=
  {| app := a; pending := pending w; calls := calls w; clock := clock w |}.

(** Runs a handler until it ends or suspends. *)
Fixpoint run (t : Task unit) (w : World) : World :=
  match t with
  | Ret _ => w
  | Throw _ => w
  | Upd u k => run k (with_app w (apply u (app w)))
  | Clock k => run (k (clock w)) w
  | Await rq k =>
      {| app := app w;
         pending := pending w ++ [k];
         calls := calls w ++ [rq];
         clock := clock w |}
  end.

(** What the user, the network, the timers and the browser can do. *)
Inductive Event :=
| Click_clearHistory
| Click_historyItem (n : nat)
| Change_input (field : InputField) (value : jsstring)
| Click_save (k : SavedKind)
| Click_generate (ty : DocumentType)
| Click_tab (idx : nat)
| Click_copy
| Timer_copied
| Click_requestRevision
| Click_accept
| Click_discard
| Change_feedback (value : jsstring)
| Click_revise
| Click_cancelFeedback
| Settle (n : nat) (r : NetReply)
| Tick (d : N)
| Reload.

Definition has_results (a : App) : bool :=
  (0 <? length (results (state a)))%nat.

(** Whether the control of an event is rendered and not disabled, read
    off the JSX. *)
Definition offered (e : Event) (a : App) : bool :=
  match e with
  | Click_clearHistory => (0 <? length (history a))%nat
  | Click_historyItem n => (n <? length (history a))%nat
  | Change_input Body value =>
      negb (isLoading (state a) || isRevising a)
      && (N.of_nat (length value) <=? 10000)%N
  | Change_input _ _ => true
  | Click_save _ => true
  | Click_generate _ =>
      negb (isLoading (state a) || isRevising a || negb (isFormValid a))
  | Click_tab idx =>
      has_results a && (1 <? length (results (state a)))%nat
      && (idx <? length (results (state a)))%nat
  | Click_copy => has_results a
  | Timer_copied => true
  | Click_requestRevision =>
      has_results a
      && (negb (showFeedbackInput a) && negb (truthy_opt (previousVersion a)))
  | Click_accept | Click_discard =>
      has_results a
      && negb (negb (showFeedbackInput a) && negb (truthy_opt (previousVersion a)))
      && truthy_opt (previousVersion a)
  | Change_feedback _ | Click_cancelFeedback =>
      has_results a
      && negb (negb (showFeedbackInput a) && negb (truthy_opt (previousVersion a)))
      && negb (truthy_opt (previousVersion a))
  | Click_revise =>
      has_results a
      && negb (negb (showFeedbackInput a) && negb (truthy_opt (previousVersion a)))
      && negb (truthy_opt (previousVersion a))
      && negb (negb (truthy (trim (feedbackText a))))
  | Settle _ _ | Tick _ | Reload => true
  end.

(** The handler attached to a control. *)
Definition handler (e : Event) (a : App) : Task unit :=
  match e with
  | Click_clearHistory => set_ (setHistory (fun _ => []))
  | Click_historyItem n =>
      match nth_error (history a) n with
      | Some item => loadFromHistory item
      | None => Ret tt
      end
  | Change_input field value => handleInputChange field value
  | Click_save Recipients => saveItem a Recipients (recipientName (inputs a))
  | Click_save Subjects => saveItem a Subjects (subject (inputs a))
  | Click_generate ty => handleGenerate a ty
  | Click_tab idx => set_ (setState (fun prev => with_selectedIndex prev idx))
  | Click_copy => handleCopy a
  | Timer_copied => set_ (setCopied false)
  | Click_requestRevision => set_ (setShowFeedbackInput true)
  | Click_accept => handleAcceptRevision
  | Click_discard => handleDiscardRevision a
  | Change_feedback value => set_ (setFeedbackText value)
  | Click_revise => handleRevise a
  | Click_cancelFeedback =>
      set_ (setShowFeedbackInput false) ;; set_ (setFeedbackText [])
  | Settle _ _ | Tick _ | Reload => Ret tt
  end.

Fixpoint remove_nth (A : Type) (n : nat) (l : list A) : list A :=
  match n, l with
  | _, [] => []
  | O, _ :: t => t
  | S m, x :: t => x :: remove_nth m t
  end.

(** A page load: the mount effect reads back the two records that the
    persist effects wrote after the last change. *)
Definition mount (a : App) : App :=
  {| inputs := initialInputs;
     savedData := savedData a;
     state := initialState;
     copied := false;
     history := history a;
     feedbackText := [];
     isRevising := false;
     previousVersion := None;
     showFeedbackInput := false |}.

Definition step (e : Event) (w : World) : World :=
  match e with
  | Settle n r =>
      match nth_error (pending w) n with
      | Some k =>
          run (k r)
            {| app := app w; pending := remove_nth n (pending w);
               calls := calls w; clock := clock w |}
      | None => w
      end
  | Tick d =>
      {| app := app w; pending := pending w; calls := calls w;
         clock := (clock w + d)%N |}
  | Reload =>
      {| app := mount (app w); pending := []; calls := calls w;
         clock := clock w |}
  | _ => if offered e (app w) then run (handler e (app w)) w else w
  end.

Definition steps (es : list Event) (w : World) : World :=
  fold_left (fun w e => step e w) es w.

(** Every event of the schedule found its control on offer, and every
    reply a handler waiting for it. *)
Fixpoint accepted (es : list Event) (w : World) : bool :=
  match es with
  | [] => true
  | e :: rest =>
      match e with
      | Settle n _ => (n <? length (pending w))%nat
      | _ => offered e (app w)
      end
      && accepted rest (step e w)
  end.

Definition initialWorld : World :=
  {| app := initialApp; pending := []; calls := []; clock := 0 |}.

Inductive reachable : World -> Prop :=
| reachable_init : reachable initialWorld
| reachable_step e w : reachable w -> reachable (step e w).

(** ** Running a task in one go

    The same handlers with every request answered on the spot by [net]:
    no other event comes between a call and its reply. *)

Fixpoint complete (net : Request -> NetReply) (now : N) (t : Task unit)
  (a : App) : App :=
  match t with
  | Ret _ => a
  | Throw _ => a
  | Upd u k => complete net now k (apply u a)
  | Clock k => complete net now (k now) a
  | Await rq k => complete net now (k (net rq)) a
  end.

(** The value or the thrown error of a service call. *)
Fixpoint outcome (A : Type) (net : Request -> NetReply) (now : N)
  (t : Task A) : A + JsError :=
  match t with
  | Ret a => inl a
  | Throw e => inr e
  | Upd _ k => outcome net now k
  | Clock k => outcome net now (k now)
  | Await rq k => outcome net now (k (net rq))
  end.

(** The requests a task sends. *)
Fixpoint requests (A : Type) (net : Request -> NetReply) (now : N)
  (t : Task A) : list Request :=
  match t with
  | Ret _ => []
  | Throw _ => []
  | Upd _ k => requests net now k
  | Clock k => requests net now (k now)
  | Await rq k => rq :: requests net now (k (net rq))
  end.

(** The successive values that the calls of [setState] give to the
    generation state, starting from [s]. *)
Fixpoint state_writes (net : Request -> NetReply) (now : N) (t : Task unit)
  (s : GenerationState) : list GenerationState :=
  match t with
  | Ret _ => []
  | Throw _ => []
  | Upd (setState f) k => f s :: state_writes net now k (f s)
  | Upd _ k => state_writes net now k s
  | Clock k => state_writes net now (k now) s
  | Await rq k => state_writes net now (k (net rq)) s
  end.

(** The continuation of a suspended task, given its reply. *)
Definition resume (A : Type) (t : Task A) (r : NetReply) : Task A :=
  match t with
  | Await _ k => k r
  | _ => t
  end.

(** ** The outcomes of a generation, as the specification names them *)

Definition Ready (ty : DocumentType) (s : GenerationState) : Prop :=
  isLoading s = false /\ error s = None /\ results s <> []
  /\ selectedIndex s = 0 /\ type s = Some ty.

Definition Failed (s : GenerationState) : Prop :=
  isLoading s = false /\ error s <> None /\ results s = [] /\ type s = None.

(** A call of [handleGenerate] writes the generation state twice: the
    loading state, then one of the two outcomes. *)
Definition loads_then_settles (net : Request -> NetReply) (now : N)
  (a : App) (ty : DocumentType) : Prop :=
  exists final,
    state_writes net now (handleGenerate a ty) (state a)
    = [loadingState ty; final]
    /\ (Ready ty final \/ Failed final)
    /\ ~ (Ready ty final /\ Failed final).


(** ** Invariants of tasks

    [keeps P t]: every update that [t] can issue, on any path and after any
    reply, takes a state in [P] to a state in [P]. *)

Fixpoint keeps (A : Type) (P : App -> Prop) (t : Task A) : Prop :=
  match t with
  | Ret _ => True
  | Throw _ => True
  | Upd u k => (forall a, P a -> P (apply u a)) /\ keeps P k
  | Clock k => forall n, keeps P (k n)
  | Await _ k => forall r, keeps P (k r)
  end.

Definition history_capped (a : App) : Prop := length (history a) <= 10.


(** ** Invariants of the generation state *)

(** The selected index points at a result that is there, or there is no
    result and the index is 0. *)
Definition selection_valid (s : GenerationState) : Prop :=
  (results s <> [] ->
   exists v, array_get (results s) (selectedIndex s) = Some v)
  /\ (results s = [] -> selectedIndex s = 0).

(** Results on display have a document type. *)
Definition results_typed (s : GenerationState) : Prop :=
  results s <> [] -> type s <> None.

Definition well_formed (a : App) : Prop :=
  Forall (fun x => x <> None) (results (state a))
  /\ (selectedIndex (state a) < length (results (state a))
      \/ (results (state a) = [] /\ selectedIndex (state a) = 0))
  /\ results_typed (state a)
  /\ Forall (fun item => generatedText item <> None) (history a).

Definition index_zero_when_empty (a : App) : Prop :=
  results (state a) = [] -> selectedIndex (state a) = 0.


(** Schedules without overlap: once a request is out, the next thing to
    happen to the page is its reply (or time passing, or a reload). *)
Inductive serial : World -> Prop :=
| serial_init : serial initialWorld
| serial_event e w : serial w -> pending w = [] -> serial (step e w)
| serial_settle r w : serial w -> serial (step (Settle 0 r) w)
| serial_tick d w : serial w -> serial (step (Tick d) w)
| serial_reload w : serial w -> serial (step Reload w).

(** The handler in flight, if there is one, ends in a well-formed state. *)
Definition settles_well (w : World) : Prop :=
  pending w = []
  \/ exists k,
       pending w = [k]
       /\ forall r c cl,
            let w1 := run (k r)
                        {| app := app w; pending := []; calls := cl; clock := c |} in
            well_formed (app w1) /\ pending w1 = [].


(** ** Further invariants *)

(** A stored value: not empty, and without white space at either end. *)
Definition stored_ok (s : jsstring) : Prop := s <> [] /\ trim s = s.

Definition saved_clean (a : App) : Prop :=
  NoDup (recipients (savedData a)) /\ NoDup (subjects (savedData a))
  /\ Forall stored_ok (recipients (savedData a))
  /\ Forall stored_ok (subjects (savedData a)).

(** [quiet t]: the task awaits nothing. *)
Fixpoint quiet (A : Type) (t : Task A) : Prop :=
  match t with
  | Ret _ => True
  | Throw _ => True
  | Upd _ k => quiet k
  | Clock k => forall n, quiet (k n)
  | Await _ _ => False
  end.

(** [one_shot t]: the task awaits at most once. *)
Fixpoint one_shot (A : Type) (t : Task A) : Prop :=
  match t with
  | Ret _ => True
  | Throw _ => True
  | Upd _ k => one_shot k
  | Clock k => forall n, one_shot (k n)
  | Await _ k => forall r, quiet (k r)
  end.


(** ** The exported file

    What [handleDownloadWord] hands to the browser: the name of the file,
    the type of the blob and its parts, a byte-order mark and the HTML
    document around the current result. *)

Record Download := {
  fileName : jsstring;
  mimeType : jsstring;
  parts : list jsstring
}.

Definition word_header : jsstring :=
  lit "<html xmlns:o='urn:schemas-microsoft-com:office:office' xmlns:w='urn:schemas-microsoft-com:office:word' xmlns='http://www.w3.org/TR/REC-html40'><head><meta charset='utf-8'><title>Document</title></head><body>".

Definition word_footer : jsstring := lit "</body></html>".

Definition htmlContent (current : jsstring) : jsstring :=
  word_header
  ++ ((lit "<div style=" ++ [34%N]
       ++ lit "font-family: 'Vazirmatn', 'Arial', sans-serif; direction: rtl; text-align: justify; line-height: 1.6; white-space: pre-wrap;"
       ++ [34%N] ++ lit ">")
      ++ current ++ lit "</div>")
  ++ word_footer.

Definition downloadedFile (a : App) : option Download :=
  match getCurrentResult (state a) with
  | Some current =>
      if truthy current then
        Some {| fileName := match type (state a) with
                            | Some LETTER => lit "Letter.doc"
                            | _ => lit "Minutes.doc"
                            end;
                mimeType := lit "application/msword";
                parts := [[65279%N]; htmlContent current] |}
      else None
  | None => None
  end.


(** The schedule has no overlap: an event other than the reply to the
    one request in flight, a tick or a reload only comes when no request is
    out. *)
Fixpoint overlap_free (es : list Event) (w : World) : bool :=
  match es with
  | [] => true
  | e :: rest =>
      match e with
      | Settle 0 _ | Tick _ | Reload => true
      | _ => match pending w with [] => true | _ :: _ => false end
      end
      && overlap_free rest (step e w)
  end.

(** ** Test data

    A credential, a few states of the page, two schedules in which a
    generation and a revision overlap, one in which a generation is still
    out when the next is started, and one without overlap in which a
    revision is discarded from another tab. *)

Definition demo_key : option jsstring := Some (lit "secret").

Definition with_body (v : jsstring) : App :=
  apply (setInputs (fun prev => with_field Body prev v)) initialApp.

(** Two drafts, the second selected, and a feedback typed in. *)
Definition two_drafts : App :=
  {| inputs := initialInputs;
     savedData := {| recipients := []; subjects := [] |};
     state := {| isLoading := false; error := None;
                 results := [Some (lit "A"); Some (lit "B")];
                 selectedIndex := 1; type := Some LETTER |};
     copied := false;
     history := [];
     feedbackText := lit "shorter";
     isRevising := false;
     previousVersion := None;
     showFeedbackInput := true |}.

Definition always (r : NetReply) : Request -> NetReply := fun _ => r.

Definition no_message : JsError := {| message := None |}.

(** A first generation that succeeds, then a second one still in flight
    when the user opens the history item, asks for a revision of it, and
    the two replies arrive: the generation's first, then the revision's. *)
Definition overlap_prefix : list Event :=
  [ Change_input Body (lit "x");
    Click_generate LETTER;
    Settle 0 (Resolved (Some (MockJSON.stringify [lit "g"])));
    Click_generate MINUTES;
    Click_historyItem 0;
    Click_requestRevision;
    Change_feedback (lit "f");
    Click_revise ].

Definition overlap_failed_generation : list Event :=
  overlap_prefix
  ++ [ Settle 0 (Rejected no_message);
       Settle 0 (Resolved (Some (lit "r"))) ].

Definition overlap_tab_switch : list Event :=
  overlap_prefix
  ++ [ Settle 0 (Resolved (Some (MockJSON.stringify [lit "a"; lit "b"])));
       Click_tab 1;
       Settle 0 (Resolved (Some (lit "r"))) ].

Definition world_of (a : App) : World :=
  {| app := a; pending := []; calls := []; clock := 0 |}.

(** Two inputs that differ in everything but the body. *)
Definition memo_plain : DocumentInputs :=
  {| recipientName := []; recipientRole := []; subject := [];
     body := lit "budget review" |}.

Definition memo_addressed : DocumentInputs :=
  {| recipientName := lit "Dr. M"; recipientRole := lit "CEO";
     subject := lit "budget"; body := lit "budget review" |}.

(** The service returned an empty first variation. *)
Definition blank_variation : App :=
  apply (setState (fun _ =>
    {| isLoading := false; error := None;
       results := [Some []; Some (lit "B")];
       selectedIndex := 0; type := Some LETTER |})) initialApp.

(** One generation, answered before anything else happens. *)
Definition one_generation : list Event :=
  [ Change_input Body (lit "x");
    Click_generate LETTER;
    Settle 0 (Resolved (Some (MockJSON.stringify [lit "a"; lit "b"]))) ].


(** A generation is loading when the user opens the one history item;
    the generate button is on offer again. *)
Definition generation_pending_after_history : list Event :=
  [ Change_input Body (lit "x");
    Click_generate LETTER;
    Settle 0 (Resolved (Some (MockJSON.stringify [lit "g"])));
    Click_generate MINUTES;
    Click_historyItem 0 ].

(** Two variations; the second is revised, the first tab is selected, and
    the revision is discarded. *)
Definition revise_second_tab : list Event :=
  [ Change_input Body (lit "x");
    Click_generate LETTER;
    Settle 0 (Resolved (Some (MockJSON.stringify [lit "A"; lit "B"])));
    Click_tab 1;
    Click_requestRevision;
    Change_feedback (lit "f");
    Click_revise;
    Settle 0 (Resolved (Some (lit "B2"))) ].

Definition discard_on_first_tab : list Event :=
  revise_second_tab ++ [ Click_tab 0; Click_discard ].

(* ================================================================ *)
(** * Properties *)

Unset Implicit Arguments.

(** *** Strings and arrays *)

Lemma truthy_nonempty (s : jsstring) : truthy s = true <-> s <> [].
Proof. destruct s; simpl; split; congruence. Qed.

Lemma truthy_false_empty (s : jsstring) : truthy s = false <-> s = [].
Proof. destruct s; simpl; split; congruence. Qed.

Lemma eqb_eq (s t : jsstring) : JS.eqb s t = true <-> s = t.
Proof.
  unfold JS.eqb. destruct (list_eq_dec N.eq_dec s t); split; congruence.
Qed.

Lemma includes_In (l : list jsstring) (v : jsstring) :
  includes l v = true <-> In v l.
Proof.
  unfold includes. rewrite existsb_exists. split.
  - intros [x [Hx He]]. apply eqb_eq in He. now subst.
  - intros H. exists v. split; [assumption | now apply eqb_eq].
Qed.

Lemma or_else_truthy (m d : jsstring) :
  truthy m = true -> or_else (Some m) d = m.
Proof. intros H. unfold or_else. now rewrite H. Qed.

Lemma or_else_is_truthy (m : option jsstring) (d : jsstring) :
  truthy d = true -> truthy (or_else m d) = true.
Proof.
  intros Hd. unfold or_else. destruct m as [s|]; [| assumption].
  destruct (truthy s) eqn:E; assumption.
Qed.

Lemma array_set_length (A : Type) (l : list (option A)) i (v : A) :
  length (array_set l i v) = Nat.max (length l) (S i).
Proof.
  revert l. induction i as [|i IH]; intros [|x l]; simpl; try reflexivity.
  - now rewrite Nat.max_comm.
  - specialize (IH []). simpl in IH. now rewrite IH.
  - now rewrite IH.
Qed.

Lemma array_set_nth (A : Type) (l : list (option A)) i (v : A) :
  nth_error (array_set l i v) i = Some (Some v).
Proof.
  revert l. induction i as [|i IH]; intros [|x l]; simpl; auto.
Qed.

Lemma array_get_set (A : Type) (l : list (option A)) i (v : A) :
  array_get (array_set l i v) i = Some v.
Proof. unfold array_get. now rewrite array_set_nth. Qed.

Lemma array_set_same (A : Type) (l : list (option A)) i (v : A) :
  nth_error l i = Some (Some v) -> array_set l i v = l.
Proof.
  revert l. induction i as [|i IH]; intros [|x l]; simpl; try discriminate.
  - now intros [= ->].
  - intros H. now rewrite IH.
Qed.

Lemma array_set_twice (A : Type) (l : list (option A)) i (u v : A) :
  array_set (array_set l i u) i v = array_set l i v.
Proof.
  revert l. induction i as [|i IH]; intros [|x l]; simpl; try reflexivity;
    now rewrite IH.
Qed.

Lemma array_get_Some_nth (A : Type) (l : list (option A)) i (v : A) :
  array_get l i = Some v -> nth_error l i = Some (Some v).
Proof.
  unfold array_get. destruct (nth_error l i) as [[x|]|]; congruence.
Qed.

Lemma getCurrentResult_nth (s : GenerationState) (c : jsstring) :
  getCurrentResult s = Some c ->
  nth_error (results s) (selectedIndex s) = Some (Some c).
Proof.
  unfold getCurrentResult.
  destruct (length (results s) =? 0)%nat; [discriminate |].
  apply array_get_Some_nth.
Qed.

(** *** The missing credential *)

(** C4. When the API credential is absent (undefined, or the empty
    string, which [!apiKey] treats alike), [generateDocument] and
    [reviseDocument] both fail at once with the message
    "تنظیمات API Key یافت نشد." and send no request. *)
Theorem missing_key_fails_fast
  (Hkey : truthy_opt apiKey = false)
  (inp : DocumentInputs) (draft feedback : jsstring) (ty : DocumentType)
  (net : Request -> NetReply) (now : N) :
  generateDocument inp ty = Throw (Error (lit "تنظیمات API Key یافت نشد."))
  /\ reviseDocument draft feedback ty
     = Throw (Error (lit "تنظیمات API Key یافت نشد."))
  /\ requests net now (generateDocument inp ty) = []
  /\ requests net now (reviseDocument draft feedback ty) = [].
Proof.
  unfold generateDocument, reviseDocument. rewrite Hkey. simpl.
  repeat split; reflexivity.
Qed.

(** *** The reply of a generation call *)

Lemma generateDocument_awaits (inp : DocumentInputs) (ty : DocumentType) :
  truthy_opt apiKey = true ->
  exists k, generateDocument inp ty = Await (generation_request inp ty) k.
Proof.
  intros Hkey. unfold generateDocument. rewrite Hkey. simpl.
  eexists. reflexivity.
Qed.

(** C3. With a credential configured, [generateDocument] sends its
    request and then: a response text that parses to a non-empty array is
    returned as that array, whatever its length; a text that does not
    parse, or parses to something that is not a non-empty array, is
    returned alone in a one-element array; a response without text
    (undefined, or empty, which [if (response.text)] treats alike) fails
    with the no-response error. *)
Theorem generateDocument_reply
  (Hkey : truthy_opt apiKey = true)
  (inp : DocumentInputs) (ty : DocumentType) :
  (exists k, generateDocument inp ty = Await (generation_request inp ty) k)
  /\ (forall text parsed,
        truthy text = true ->
        JSON_parse text = Some (JArray parsed) -> parsed <> [] ->
        resume (generateDocument inp ty) (Resolved (Some text)) = Ret parsed)
  /\ (forall text,
        truthy text = true ->
        JSON_parse text = None \/ JSON_parse text = Some JOther
        \/ JSON_parse text = Some (JArray []) ->
        resume (generateDocument inp ty) (Resolved (Some text)) = Ret [text])
  /\ (forall text,
        truthy_opt text = false ->
        resume (generateDocument inp ty) (Resolved text)
        = Throw (Error (lit "پاسخی از مدل دریافت نشد. لطفاً مجدد تلاش کنید."))).
Proof.
  split; [now apply generateDocument_awaits |].
  unfold generateDocument. rewrite Hkey. simpl.
  split; [| split].
  - intros text parsed Ht Hp Hne. rewrite Ht, Hp.
    destruct parsed as [|x l]; [congruence | reflexivity].
  - intros text Ht [Hp | [Hp | Hp]]; rewrite Ht, Hp; reflexivity.
  - intros [text|] Ht; simpl in Ht; [rewrite Ht |]; simpl;
      now rewrite or_else_truthy by (vm_compute; reflexivity).
Qed.


(** *** Generation *)

Lemma Ready_not_Failed (ty : DocumentType) (s : GenerationState) :
  ~ (Ready ty s /\ Failed s).
Proof. intros [(_ & He & _) (_ & Hn & _)]. now apply Hn. Qed.

Lemma form_guard_passes (a : App) :
  truthy (trim (body (inputs a))) = true
  \/ truthy (trim (subject (inputs a))) = true ->
  negb (truthy (trim (body (inputs a))))
  && negb (truthy (trim (subject (inputs a)))) = false.
Proof. intros [H | H]; rewrite H; simpl; [| rewrite andb_false_r]; reflexivity. Qed.

(** C1, amended. For every call of [handleGenerate] in which the body or
    the subject is not blank after trimming, the generation state is first
    set to the loading state and then to exactly one of Ready
    (isLoading=false, error=null, results non-empty, selectedIndex=0, type
    the requested one) and Failed (isLoading=false, an error message,
    results=[], type=null). *)
Theorem generate_loads_then_settles
  (net : Request -> NetReply) (now : N) (a : App) (ty : DocumentType)
  (Hform : truthy (trim (body (inputs a))) = true
           \/ truthy (trim (subject (inputs a))) = true) :
  loads_then_settles net now a ty.
Proof.
  unfold loads_then_settles, handleGenerate.
  rewrite (form_guard_passes a Hform).
  unfold generateDocument.
  destruct (truthy_opt apiKey); simpl.
  2: { eexists. split; [reflexivity |]. split; [| apply Ready_not_Failed].
       right. repeat split. discriminate. }
  destruct (net (generation_request (inputs a) ty)) as [[text|]|e]; simpl.
  - destruct (truthy text) eqn:Ht; simpl.
    + destruct (JSON_parse text) as [[parsed|]|]; simpl.
      * destruct parsed as [|x l]; simpl;
          (eexists; split; [reflexivity |];
           split; [| apply Ready_not_Failed]; left; repeat split; discriminate).
      * eexists; split; [reflexivity |].
        split; [| apply Ready_not_Failed]. left. repeat split. discriminate.
      * eexists; split; [reflexivity |].
        split; [| apply Ready_not_Failed]. left. repeat split. discriminate.
    + eexists; split; [reflexivity |].
      split; [| apply Ready_not_Failed]. right. repeat split. discriminate.
  - eexists; split; [reflexivity |].
    split; [| apply Ready_not_Failed]. right. repeat split. discriminate.
  - eexists; split; [reflexivity |].
    split; [| apply Ready_not_Failed]. right. repeat split. discriminate.
Qed.

(** The generate buttons are disabled while the flag isLoading is set,
    while the flag isRevising is set, and while body and subject are both
    blank after trimming: a click then changes nothing and sends no
    request. *)
Theorem generate_guarded (w : World) (ty : DocumentType)
  (Hblocked : isLoading (state (app w)) = true
              \/ isRevising (app w) = true
              \/ (trim (body (inputs (app w))) = []
                  /\ trim (subject (inputs (app w))) = [])) :
  step (Click_generate ty) w = w.
Proof.
  unfold step, offered, isFormValid.
  destruct Hblocked as [H | [H | [Hb Hs]]].
  - now rewrite H.
  - rewrite H. now rewrite orb_true_r.
  - rewrite Hb, Hs. simpl. now rewrite orb_true_r.
Qed.

(** The handler has the form guard of its own; the other two conditions
    are those of the buttons only. *)
Lemma handleGenerate_blank_form (a : App) (ty : DocumentType) :
  trim (body (inputs a)) = [] -> trim (subject (inputs a)) = [] ->
  handleGenerate a ty = Ret tt.
Proof. intros Hb Hs. unfold handleGenerate. now rewrite Hb, Hs. Qed.


(** *** Saved field values *)

Lemma saveItem_noop (a : App) (k : SavedKind) (value : jsstring) :
  trim value = [] \/ In (trim value) (saved k (savedData a)) ->
  saveItem a k value = Ret tt.
Proof.
  intros H. unfold saveItem.
  destruct H as [H | H].
  - now rewrite H.
  - apply includes_In in H. rewrite H. now rewrite orb_true_r.
Qed.

Lemma saveItem_appends (a : App) (k : SavedKind) (value : jsstring) :
  trim value <> [] -> ~ In (trim value) (saved k (savedData a)) ->
  saveItem a k value
  = set_ (setSavedData (fun prev =>
           with_saved k prev (saved k prev ++ [trim value]))).
Proof.
  intros Hne Hnin. unfold saveItem.
  apply truthy_nonempty in Hne. rewrite Hne.
  destruct (includes (saved k (savedData a)) (trim value)) eqn:E.
  - apply includes_In in E. contradiction.
  - reflexivity.
Qed.

Lemma saved_with_saved (k : SavedKind) (d : SavedData) (l : list jsstring) :
  saved k (with_saved k d l) = l.
Proof. now destruct k. Qed.

(** C7. [saveItem] trims and deduplicates: it changes nothing when the
    value is blank after trimming or when the trimmed value is already in
    the stored list; otherwise it appends the trimmed value to that list
    (and leaves the other list alone).  Hence saving a second value with
    the same trimmed text is a no-op. *)
Theorem saveItem_trims_and_dedupes
  (net : Request -> NetReply) (now : N)
  (a : App) (k : SavedKind) (value : jsstring) :
  let a1 := complete net now (saveItem a k value) a in
  (trim value = [] \/ In (trim value) (saved k (savedData a)) -> a1 = a)
  /\ (trim value <> [] -> ~ In (trim value) (saved k (savedData a)) ->
      saved k (savedData a1) = saved k (savedData a) ++ [trim value]
      /\ a1 = apply (setSavedData (fun prev =>
                with_saved k prev (saved k prev ++ [trim value]))) a)
  /\ (forall value2, trim value2 = trim value ->
      complete net now (saveItem a1 k value2) a1 = a1).
Proof.
  cbv zeta. split; [| split].
  - intros H. now rewrite (saveItem_noop a k value H).
  - intros Hne Hnin. rewrite (saveItem_appends a k value Hne Hnin). simpl.
    split; [apply saved_with_saved | reflexivity].
  - intros value2 Heq.
    rewrite (saveItem_noop _ k value2); [reflexivity |].
    rewrite Heq.
    destruct (trim value) as [|c t] eqn:Et; [now left | right].
    destruct (in_dec (list_eq_dec N.eq_dec) (c :: t) (saved k (savedData a)))
      as [Hin | Hnin].
    + rewrite (saveItem_noop a k value) by (right; now rewrite Et). exact Hin.
    + assert (Hne : trim value <> []) by (rewrite Et; discriminate).
      rewrite <- Et in Hnin.
      rewrite (saveItem_appends a k value Hne Hnin).
      simpl. rewrite saved_with_saved, Et. apply in_or_app. right. now left.
Qed.

(** *** Revision *)

Lemma discard_writes_snapshot (net : Request -> NetReply) (now : N)
  (b : App) (pv : jsstring) :
  previousVersion b = Some pv -> truthy pv = true ->
  let b1 := complete net now (handleDiscardRevision b) b in
  state b1
  = with_results (state b)
      (array_set (results (state b)) (selectedIndex (state b)) pv)
  /\ array_get (results (state b1)) (selectedIndex (state b1)) = Some pv
  /\ previousVersion b1 = None.
Proof.
  intros Hpv Ht. unfold handleDiscardRevision. rewrite Hpv, Ht. simpl.
  split; [reflexivity |]. split; [apply array_get_set | reflexivity].
Qed.

Lemma discard_without_snapshot (net : Request -> NetReply) (now : N) (b : App) :
  truthy_opt (previousVersion b) = false ->
  complete net now (handleDiscardRevision b) b = b.
Proof.
  unfold handleDiscardRevision.
  destruct (previousVersion b) as [pv|]; simpl; [intros -> |]; reflexivity.
Qed.

Lemma handleRevise_guard (a : App) (current : jsstring) (ty : DocumentType) :
  getCurrentResult (state a) = Some current -> truthy current = true ->
  type (state a) = Some ty -> truthy (trim (feedbackText a)) = true ->
  handleRevise a
  = (set_ (setIsRevising true) ;;
     set_ (setPreviousVersion (Some current)) ;;
     try_finally
       (try_catch
          (revisedResult <- reviseDocument current (feedbackText a) ty ;;
           updateCurrentResult a revisedResult ;;
           set_ (setFeedbackText []))
          (fun err =>
             set_ (setState (fun prev =>
               with_error prev
                 (Some (or_else (message err) (lit "خطا در ویرایش متن")))))))
       (set_ (setIsRevising false))).
Proof.
  intros Hc Ht Hty Hf. unfold handleRevise. now rewrite Hc, Hty, Ht, Hf.
Qed.

Lemma revise_applies (net : Request -> NetReply) (now : N)
  (a : App) (current revised : jsstring) (ty : DocumentType) :
  getCurrentResult (state a) = Some current -> truthy current = true ->
  type (state a) = Some ty -> truthy (trim (feedbackText a)) = true ->
  outcome net now (reviseDocument current (feedbackText a) ty) = inl revised ->
  complete net now (handleRevise a) a
  = {| inputs := inputs a; savedData := savedData a;
       state := with_results (state a)
                  (array_set (results (state a)) (selectedIndex (state a)) revised);
       copied := copied a; history := history a;
       feedbackText := [];
       isRevising := false;
       previousVersion := Some current;
       showFeedbackInput := showFeedbackInput a |}.
Proof.
  intros Hc Ht Hty Hf Hout.
  rewrite (handleRevise_guard a current ty Hc Ht Hty Hf).
  revert Hout. unfold reviseDocument.
  destruct (truthy_opt apiKey); simpl; [| discriminate].
  destruct (net _) as [[text|]|e]; simpl; try discriminate.
  destruct (truthy text); simpl; [| discriminate].
  now intros [= ->].
Qed.

Lemma reviseDocument_error_message (net : Request -> NetReply) (now : N)
  (draft feedback : jsstring) (ty : DocumentType) (err : JsError) :
  outcome net now (reviseDocument draft feedback ty) = inr err ->
  exists m, message err = Some m /\ truthy m = true.
Proof.
  unfold reviseDocument.
  destruct (truthy_opt apiKey); simpl.
  2: { intros [= <-]. eexists. split; [reflexivity | now vm_compute]. }
  destruct (net _) as [[text|]|e]; simpl.
  - destruct (truthy text); simpl; [discriminate |].
    intros [= <-]. eexists. split; [reflexivity |].
    apply or_else_is_truthy. now vm_compute.
  - intros [= <-]. eexists. split; [reflexivity |].
    apply or_else_is_truthy. now vm_compute.
  - intros [= <-]. eexists. split; [reflexivity |].
    apply or_else_is_truthy. now vm_compute.
Qed.

Lemma revise_fails (net : Request -> NetReply) (now : N)
  (a : App) (current : jsstring) (ty : DocumentType) (err : JsError) :
  getCurrentResult (state a) = Some current -> truthy current = true ->
  type (state a) = Some ty -> truthy (trim (feedbackText a)) = true ->
  outcome net now (reviseDocument current (feedbackText a) ty) = inr err ->
  complete net now (handleRevise a) a
  = {| inputs := inputs a; savedData := savedData a;
       state := with_error (state a)
                  (Some (or_else (message err) (lit "خطا در ویرایش متن")));
       copied := copied a; history := history a;
       feedbackText := feedbackText a;
       isRevising := false;
       previousVersion := Some current;
       showFeedbackInput := showFeedbackInput a |}.
Proof.
  intros Hc Ht Hty Hf Hout.
  rewrite (handleRevise_guard a current ty Hc Ht Hty Hf).
  revert Hout. unfold reviseDocument.
  destruct (truthy_opt apiKey); simpl.
  2: { now intros [= <-]. }
  destruct (net _) as [[text|]|e]; simpl.
  - destruct (truthy text); simpl; [discriminate |]. now intros [= <-].
  - now intros [= <-].
  - now intros [= <-].
Qed.


Lemma getCurrentResult_set (s : GenerationState) (v : jsstring) :
  getCurrentResult
    (with_results s (array_set (results s) (selectedIndex s) v)) = Some v.
Proof.
  unfold getCurrentResult. simpl.
  rewrite array_set_length.
  destruct (Nat.max (length (results s)) (S (selectedIndex s))) eqn:E;
    [lia |].
  simpl. apply array_get_set.
Qed.

Lemma with_results_restore (s : GenerationState) (r : list (option jsstring)) :
  with_results (with_results s r) (results s) = s.
Proof. now destruct s. Qed.

(** Discarding writes the snapshot [previousVersion] into
    results[selectedIndex] and clears the snapshot.  A revision of the
    selected result followed directly by the discard gives back the
    generation state of before the revision. *)
Theorem discard_restores_snapshot (net : Request -> NetReply) (now : N) :
  (forall (b : App) (pv : jsstring),
      previousVersion b = Some pv -> truthy pv = true ->
      let b1 := complete net now (handleDiscardRevision b) b in
      array_get (results (state b1)) (selectedIndex (state b1)) = Some pv
      /\ previousVersion b1 = None)
  /\ (forall (a : App) (current revised : jsstring) (ty : DocumentType),
      getCurrentResult (state a) = Some current -> truthy current = true ->
      type (state a) = Some ty -> truthy (trim (feedbackText a)) = true ->
      outcome net now (reviseDocument current (feedbackText a) ty)
      = inl revised ->
      let a1 := complete net now (handleRevise a) a in
      let a2 := complete net now (handleDiscardRevision a1) a1 in
      getCurrentResult (state a1) = Some revised
      /\ previousVersion a1 = Some current
      /\ state a2 = state a
      /\ getCurrentResult (state a2) = Some current
      /\ previousVersion a2 = None).
Proof.
  split.
  - intros b pv Hpv Ht. cbv zeta.
    destruct (discard_writes_snapshot net now b pv Hpv Ht) as (_ & Hg & Hn).
    now split.
  - intros a current revised ty Hc Ht Hty Hf Hout. cbv zeta.
    rewrite (revise_applies net now a current revised ty Hc Ht Hty Hf Hout).
    set (a1 := Build_App _ _ _ _ _ _ _ _ _).
    assert (Hpv : previousVersion a1 = Some current) by reflexivity.
    destruct (discard_writes_snapshot net now a1 current Hpv Ht)
      as (Hs & _ & Hn). cbv zeta in Hs, Hn.
    assert (Hrestored : state (complete net now (handleDiscardRevision a1) a1)
                        = state a).
    { rewrite Hs. unfold a1. simpl.
      rewrite array_set_twice.
      rewrite (array_set_same _ _ _ _ (getCurrentResult_nth _ _ Hc)).
      apply with_results_restore. }
    split; [unfold a1; simpl; apply getCurrentResult_set |].
    split; [reflexivity |].
    split; [exact Hrestored |].
    split; [now rewrite Hrestored | exact Hn].
Qed.

(** C9. When the revision call fails, the handler sets the error field to
    the failure message and clears isRevising, and nothing else: the
    results are unchanged, the snapshot taken before the call is still
    there, the selected result is the text it was, and the discard button
    is on offer. *)
Theorem revise_failure_keeps_snapshot
  (net : Request -> NetReply) (now : N)
  (a : App) (current : jsstring) (ty : DocumentType) (err : JsError)
  (Hcur : getCurrentResult (state a) = Some current)
  (Htruthy : truthy current = true)
  (Hty : type (state a) = Some ty)
  (Hfeedback : truthy (trim (feedbackText a)) = true)
  (Hfail : outcome net now (reviseDocument current (feedbackText a) ty)
           = inr err) :
  let a1 := complete net now (handleRevise a) a in
  state a1 = with_error (state a) (message err)
  /\ error (state a1) <> None
  /\ isRevising a1 = false
  /\ previousVersion a1 = Some current
  /\ results (state a1) = results (state a)
  /\ getCurrentResult (state a1) = Some current
  /\ offered Click_discard a1 = true
  /\ (inputs a1, savedData a1, history a1, feedbackText a1,
      showFeedbackInput a1, copied a1)
     = (inputs a, savedData a, history a, feedbackText a,
        showFeedbackInput a, copied a).
Proof.
  cbv zeta.
  rewrite (revise_fails net now a current ty err Hcur Htruthy Hty Hfeedback Hfail).
  destruct (reviseDocument_error_message net now _ _ _ _ Hfail) as (m & Hm & Hmt).
  rewrite Hm, (or_else_truthy _ _ Hmt). simpl.
  repeat split; try reflexivity.
  - discriminate.
  - exact Hcur.
  - unfold offered, has_results. simpl. rewrite Htruthy.
    unfold getCurrentResult in Hcur.
    destruct (results (state a)); [discriminate | simpl].
    now rewrite andb_false_r.
Qed.


(** X17. The failure of a revision under interleaving: whatever state [b]
    the page is in when the failing reply comes, the resumed handler sets
    the error field to a non-empty message and clears isRevising, and
    touches nothing else of [b]. *)
Lemma revise_reply_failure (w : World) (b : App) (r : NetReply)
  (current : jsstring) (ty : DocumentType) :
  truthy_opt apiKey = true ->
  getCurrentResult (state (app w)) = Some current -> truthy current = true ->
  type (state (app w)) = Some ty ->
  truthy (trim (feedbackText (app w))) = true ->
  match r with
  | Rejected _ => True
  | Resolved text => truthy_opt text = false
  end ->
  let w1 := run (handleRevise (app w)) w in
  let w2 := step (Settle (length (pending w)) r) (with_app w1 b) in
  exists m,
    truthy m = true
    /\ app w2
       = apply (setIsRevising false)
           (apply (setState (fun prev => with_error prev (Some m))) b).
Proof.
  intros Hkey Hc Ht Hty Hf Hr. cbv zeta.
  rewrite (handleRevise_guard (app w) current ty Hc Ht Hty Hf).
  unfold reviseDocument. rewrite Hkey. simpl.
  unfold step, with_app. simpl.
  rewrite nth_error_app2, Nat.sub_diag by lia. simpl.
  destruct r as [[text|]|e]; simpl in *.
  - rewrite Hr. simpl.
    eexists. split; [| reflexivity].
    apply or_else_is_truthy. now vm_compute.
  - eexists. split; [| reflexivity].
    apply or_else_is_truthy. now vm_compute.
  - eexists. split; [| reflexivity].
    apply or_else_is_truthy. now vm_compute.
Qed.


(** *** Invariants along every interleaving *)

Lemma keeps_bind (A B : Type) (P : App -> Prop) (t : Task A) (f : A -> Task B) :
  keeps P t -> (forall x, keeps P (f x)) -> keeps P (bind t f).
Proof.
  intros Ht Hf. induction t as [x | e | u k IH | k IH | rq k IH]; simpl in *.
  - apply Hf.
  - exact I.
  - destruct Ht as [Hu Hk]. split; [exact Hu | now apply IH].
  - intros n. now apply IH.
  - intros r. now apply IH.
Qed.

Lemma keeps_try_catch (A : Type) (P : App -> Prop) (t : Task A)
  (h : JsError -> Task A) :
  keeps P t -> (forall e, keeps P (h e)) -> keeps P (try_catch t h).
Proof.
  intros Ht Hh. induction t as [x | e | u k IH | k IH | rq k IH]; simpl in *.
  - exact I.
  - apply Hh.
  - destruct Ht as [Hu Hk]. split; [exact Hu | now apply IH].
  - intros n. now apply IH.
  - intros r. now apply IH.
Qed.

Lemma keeps_try_finally (A : Type) (P : App -> Prop) (t : Task A)
  (f : Task unit) :
  keeps P t -> keeps P f -> keeps P (try_finally t f).
Proof.
  intros Ht Hf. induction t as [x | e | u k IH | k IH | rq k IH]; simpl in *.
  - apply keeps_bind; [exact Hf | intros; exact I].
  - apply keeps_bind; [exact Hf | intros; exact I].
  - destruct Ht as [Hu Hk]. split; [exact Hu | now apply IH].
  - intros n. now apply IH.
  - intros r. now apply IH.
Qed.

Lemma keeps_set (P : App -> Prop) (u : Update) :
  (forall a, P a -> P (apply u a)) -> keeps P (set_ u).
Proof. intros H. simpl. now split. Qed.

(** The service functions issue no update. *)
Lemma keeps_generateDocument (P : App -> Prop) inp ty :
  keeps P (generateDocument inp ty).
Proof.
  unfold generateDocument. destruct (truthy_opt apiKey); simpl; [| exact I].
  intros [[text|]|e]; simpl; try exact I.
  destruct (truthy text); simpl; [| exact I].
  destruct (JSON_parse text) as [[parsed|]|]; simpl; try exact I.
  destruct (0 <? length parsed)%nat; exact I.
Qed.

Lemma keeps_reviseDocument (P : App -> Prop) draft feedback ty :
  keeps P (reviseDocument draft feedback ty).
Proof.
  unfold reviseDocument. destruct (truthy_opt apiKey); simpl; [| exact I].
  intros [[text|]|e]; simpl; try exact I.
  destruct (truthy text); exact I.
Qed.

(** Whatever a task keeps, running it keeps, for the page and for the
    handlers it leaves suspended. *)
Lemma run_keeps (P : App -> Prop) (t : Task unit) :
  keeps P t ->
  forall w,
    P (app w) -> Forall (fun k => forall r, keeps P (k r)) (pending w) ->
    P (app (run t w))
    /\ Forall (fun k => forall r, keeps P (k r)) (pending (run t w)).
Proof.
  induction t as [x | e | u k IH | k IH | rq k IH]; simpl; intros Ht w Hw Hp.
  - now split.
  - now split.
  - destruct Ht as [Hu Hk]. apply IH; [exact Hk | now apply Hu | exact Hp].
  - now apply IH.
  - split; [exact Hw |]. apply Forall_app. split; [exact Hp |].
    constructor; [exact Ht | constructor].
Qed.

Lemma remove_nth_Forall (A : Type) (Q : A -> Prop) (n : nat) (l : list A) :
  Forall Q l -> Forall Q (remove_nth n l).
Proof.
  revert l. induction n as [|n IH]; intros [|x l] H; simpl; try constructor;
    inversion H; subst; auto.
Qed.

Lemma history_capped_apply (u : Update) :
  match u with
  | setHistory f => forall h, length h <= 10 -> length (f h) <= 10
  | _ => True
  end ->
  forall a, history_capped a -> history_capped (apply u a).
Proof.
  unfold history_capped. destruct u; simpl; intros Hu a Ha; auto.
Qed.

Ltac keeps_history :=
  repeat first
    [ exact I
    | apply keeps_generateDocument
    | apply keeps_reviseDocument
    | apply keeps_bind; [| intros ?]
    | apply keeps_try_catch; [| intros ?]
    | apply keeps_try_finally
    | apply keeps_set; apply history_capped_apply; cbv beta iota;
      first [ exact I | intros ? ?; first [ apply firstn_le_length | simpl; lia ] ] ].

Lemma handler_keeps_history (e : Event) (a : App) :
  keeps history_capped (handler e a).
Proof.
  destruct e; unfold handler.
  - keeps_history.
  - destruct (nth_error (history a) n); [unfold loadFromHistory |]; keeps_history.
  - unfold handleInputChange. keeps_history.
  - destruct k; unfold saveItem;
      match goal with |- context [if ?c then _ else _] => destruct c end;
      keeps_history.
  - unfold handleGenerate.
    match goal with |- context [if ?c then _ else _] => destruct c end;
      [exact I |].
    unfold addToHistory. keeps_history. intros n. keeps_history.
  - keeps_history.
  - unfold handleCopy. destruct (truthy_opt _); keeps_history.
  - keeps_history.
  - keeps_history.
  - unfold handleAcceptRevision. keeps_history.
  - unfold handleDiscardRevision. destruct (previousVersion a) as [pv|];
      [destruct (truthy pv) |]; unfold updateCurrentResult; keeps_history.
  - keeps_history.
  - unfold handleRevise.
    destruct (getCurrentResult (state a)); [| exact I].
    destruct (type (state a)); [| exact I].
    match goal with |- context [if ?c then _ else _] => destruct c end;
      [| exact I].
    unfold updateCurrentResult. keeps_history.
  - keeps_history.
  - exact I.
  - exact I.
  - exact I.
Qed.

Lemma step_keeps_history (e : Event) (w : World) :
  history_capped (app w) ->
  Forall (fun k => forall r, keeps history_capped (k r)) (pending w) ->
  history_capped (app (step e w))
  /\ Forall (fun k => forall r, keeps history_capped (k r)) (pending (step e w)).
Proof.
  intros Hw Hp.
  assert (Hdefault :
    history_capped (app (if offered e (app w) then run (handler e (app w)) w else w))
    /\ Forall (fun k => forall r, keeps history_capped (k r))
         (pending (if offered e (app w) then run (handler e (app w)) w else w))).
  { destruct (offered e (app w)); [| now split].
    apply run_keeps; [apply handler_keeps_history | exact Hw | exact Hp]. }
  destruct e; try exact Hdefault; unfold step.
  - destruct (nth_error (pending w) n) as [k|] eqn:Ek; [| now split].
    apply run_keeps; simpl.
    + apply nth_error_In in Ek. rewrite Forall_forall in Hp. now apply Hp.
    + exact Hw.
    + now apply remove_nth_Forall.
  - simpl. split; [exact Hw | constructor].
Qed.

Lemma reachable_history (w : World) :
  reachable w ->
  history_capped (app w)
  /\ Forall (fun k => forall r, keeps history_capped (k r)) (pending w).
Proof.
  induction 1 as [| e w Hr [IHa IHp]].
  - split; [unfold history_capped; simpl; lia | constructor].
  - now apply step_keeps_history.
Qed.

Lemma reachable_steps (es : list Event) (w : World) :
  reachable w -> reachable (steps es w).
Proof.
  revert w. induction es as [|e es IH]; intros w Hw; simpl; [exact Hw |].
  apply IH. now constructor.
Qed.

Lemma addToHistory_history (net : Request -> NetReply) (now : N)
  (original : jsstring) (generated : option jsstring) (ty : DocumentType)
  (a : App) :
  history (complete net now (addToHistory original generated ty) a)
  = firstn 10
      ({| itemId := of_N now; originalText := original;
          generatedText := generated; itemType := ty; timestamp := now |}
       :: history a).
Proof. reflexivity. Qed.

(** C5. In every state the page can reach, under any order of clicks,
    replies and reloads, the history holds at most 10 items; adding an item
    puts it at the front, keeps the others in their order, and drops the
    last one when 10 were present. *)
Theorem history_never_exceeds_ten (w : World) (Hreach : reachable w) :
  length (history (app w)) <= 10
  /\ forall (net : Request -> NetReply) (now : N)
       (original : jsstring) (generated : option jsstring) (ty : DocumentType),
       let item := {| itemId := of_N now; originalText := original;
                      generatedText := generated; itemType := ty;
                      timestamp := now |} in
       let h := history (complete net now
                           (addToHistory original generated ty) (app w)) in
       hd_error h = Some item
       /\ tl h = firstn 9 (history (app w))
       /\ length h <= 10
       /\ (length (history (app w)) = 10 ->
           h = item :: removelast (history (app w))).
Proof.
  destruct (reachable_history w Hreach) as [Hcap _].
  split; [exact Hcap |].
  intros net now original generated ty. cbv zeta.
  rewrite addToHistory_history, firstn_cons.
  cbn [hd_error tl length].
  repeat split.
  - pose proof (firstn_le_length 9 (history (app w))). lia.
  - intros Hlen. f_equal.
    rewrite removelast_firstn_len, Hlen. reflexivity.
Qed.


(** *** The index of an empty result list, along every interleaving *)

Lemma array_set_nonempty (A : Type) (l : list (option A)) (i : nat) (v : A) :
  array_set l i v <> [].
Proof. destruct i, l; simpl; discriminate. Qed.

Lemma index_zero_apply (u : Update) :
  match u with
  | setState f =>
      forall s, (results s = [] -> selectedIndex s = 0) ->
                results (f s) = [] -> selectedIndex (f s) = 0
  | _ => True
  end ->
  forall a, index_zero_when_empty a -> index_zero_when_empty (apply u a).
Proof.
  unfold index_zero_when_empty. destruct u; simpl; intros Hu a Ha; auto.
Qed.

Ltac keeps_index :=
  repeat first
    [ exact I
    | apply keeps_generateDocument
    | apply keeps_reviseDocument
    | apply keeps_bind; [| intros ?]
    | apply keeps_try_catch; [| intros ?]
    | apply keeps_try_finally
    | intros ?
    | apply keeps_set; apply index_zero_apply; cbv beta iota;
      first [ exact I
            | intros ? ? ?; simpl in *;
              first [ reflexivity | assumption | discriminate
                    | exfalso; eapply array_set_nonempty; eassumption
                    | auto ] ] ].

Lemma handler_keeps_index (e : Event) (a : App) :
  (forall idx, e <> Click_tab idx) ->
  keeps index_zero_when_empty (handler e a).
Proof.
  intros Hnot. destruct e; unfold handler.
  - keeps_index.
  - destruct (nth_error (history a) n); [unfold loadFromHistory |]; keeps_index.
  - unfold handleInputChange. keeps_index.
  - destruct k; unfold saveItem;
      match goal with |- context [if ?c then _ else _] => destruct c end;
      keeps_index.
  - unfold handleGenerate.
    match goal with |- context [if ?c then _ else _] => destruct c end;
      [exact I |].
    unfold addToHistory, loadingState. keeps_index.
  - now elim (Hnot idx).
  - unfold handleCopy. destruct (truthy_opt _); keeps_index.
  - keeps_index.
  - keeps_index.
  - unfold handleAcceptRevision. keeps_index.
  - unfold handleDiscardRevision. destruct (previousVersion a) as [pv|];
      [destruct (truthy pv) |]; unfold updateCurrentResult; keeps_index.
  - keeps_index.
  - unfold handleRevise.
    destruct (getCurrentResult (state a)); [| exact I].
    destruct (type (state a)); [| exact I].
    match goal with |- context [if ?c then _ else _] => destruct c end;
      [| exact I].
    unfold updateCurrentResult. keeps_index.
  - keeps_index.
  - exact I.
  - exact I.
  - exact I.
Qed.

Lemma step_keeps_index (e : Event) (w : World) :
  index_zero_when_empty (app w) ->
  Forall (fun k => forall r, keeps index_zero_when_empty (k r)) (pending w) ->
  index_zero_when_empty (app (step e w))
  /\ Forall (fun k => forall r, keeps index_zero_when_empty (k r))
       (pending (step e w)).
Proof.
  intros Hw Hp.
  assert (Hdefault :
    (forall idx, e <> Click_tab idx) ->
    index_zero_when_empty
      (app (if offered e (app w) then run (handler e (app w)) w else w))
    /\ Forall (fun k => forall r, keeps index_zero_when_empty (k r))
         (pending (if offered e (app w) then run (handler e (app w)) w else w))).
  { intros Hnot. destruct (offered e (app w)); [| now split].
    apply run_keeps; [now apply handler_keeps_index | exact Hw | exact Hp]. }
  destruct e; try (apply Hdefault; discriminate); unfold step.
  - destruct (offered (Click_tab idx) (app w)) eqn:Hoff; [| now split].
    simpl. split; [| exact Hp].
    unfold offered, has_results in Hoff.
    apply andb_prop in Hoff. destruct Hoff as [Hoff _].
    apply andb_prop in Hoff. destruct Hoff as [Hlen _].
    unfold index_zero_when_empty. simpl. intros Hempty.
    rewrite Hempty in Hlen. discriminate.
  - destruct (nth_error (pending w) n) as [k|] eqn:Ek; [| now split].
    apply run_keeps; simpl.
    + apply nth_error_In in Ek. rewrite Forall_forall in Hp. now apply Hp.
    + exact Hw.
    + now apply remove_nth_Forall.
  - simpl. split; [intros _; reflexivity | constructor].
Qed.

(** Whatever the order of clicks and replies, an empty result list comes
    with the index 0. *)
Lemma reachable_index_zero (w : World) :
  reachable w -> index_zero_when_empty (app w).
Proof.
  intros Hr.
  enough (index_zero_when_empty (app w)
          /\ Forall (fun k => forall r, keeps index_zero_when_empty (k r))
               (pending w)) by tauto.
  induction Hr as [| e w Hr [IHa IHp]].
  - split; [intros _; reflexivity | constructor].
  - now apply step_keeps_index.
Qed.


(** *** Schedules without overlap *)

Lemma array_set_in_range (A : Type) (Q : option A -> Prop)
  (l : list (option A)) (i : nat) (v : A) :
  i < length l -> Forall Q l -> Q (Some v) ->
  Forall Q (array_set l i v) /\ length (array_set l i v) = length l.
Proof.
  revert l. induction i as [|i IH]; intros [|x l] Hi Hl Hv; simpl in *;
    try lia; inversion Hl; subst.
  - split; [now constructor | reflexivity].
  - destruct (IH l) as [HF HL]; [lia | assumption | assumption |].
    split; [now constructor | now rewrite HL].
Qed.

Lemma Forall_map_Some (l : list jsstring) :
  Forall (fun x : option jsstring => x <> None) (map Some l).
Proof. induction l; simpl; constructor; [discriminate | assumption]. Qed.

Lemma well_formed_valid (a : App) :
  well_formed a -> selection_valid (state a) /\ results_typed (state a).
Proof.
  intros (Hdef & Hidx & Hty & _). split; [| exact Hty].
  split.
  - intros Hne. destruct Hidx as [Hlt | [He _]]; [| contradiction].
    unfold array_get.
    destruct (nth_error (results (state a)) (selectedIndex (state a)))
      as [x|] eqn:E.
    + rewrite Forall_forall in Hdef. apply nth_error_In in E.
      specialize (Hdef x E). destruct x as [v|]; [now exists v | congruence].
    + apply nth_error_None in E. lia.
  - intros He. destruct Hidx as [Hlt | [_ H0]]; [| exact H0].
    rewrite He in Hlt. simpl in Hlt. lia.
Qed.

Lemma well_formed_state (a b : App) :
  state b = state a -> history b = history a -> well_formed a -> well_formed b.
Proof. unfold well_formed. intros -> ->. auto. Qed.


Lemma settles_well_idle (w : World) : pending w = [] -> settles_well w.
Proof. now left. Qed.

Lemma Forall_history_add (item : HistoryItem) (h : list HistoryItem) :
  generatedText item <> None ->
  Forall (fun it => generatedText it <> None) h ->
  Forall (fun it => generatedText it <> None) (firstn 10 (item :: h)).
Proof.
  intros Hi Hh. rewrite firstn_cons. constructor; [exact Hi |].
  generalize 9. intros n. revert n.
  induction Hh as [|x l Hx Hl IH]; intros [|n]; cbn [firstn];
    try constructor; auto.
Qed.

Ltac wf_solve :=
  unfold well_formed, results_typed in *; simpl in *;
  split; [| split; [| split]];
  [ first [ assumption
          | constructor; [discriminate | first [apply Forall_map_Some | constructor]]
          | constructor ]
  | first [ assumption | left; simpl; lia | right; now split ]
  | first [ assumption | intros _; discriminate | intros H; now elim H ]
  | first [ assumption
          | apply Forall_history_add; [discriminate | assumption]
          | constructor ] ].

Lemma run_handleGenerate (w : World) (ty : DocumentType) :
  pending w = [] -> well_formed (app w) ->
  let w1 := run (handleGenerate (app w) ty) w in
  well_formed (app w1) /\ settles_well w1.
Proof.
  destruct w as [a p cl c]. simpl. intros -> Hwf.
  unfold handleGenerate.
  match goal with |- context [if ?g then _ else _] => destruct g end;
    [split; [exact Hwf | now left] |].
  destruct Hwf as (Hdef & Hidx & Hty & Hhist).
  unfold generateDocument.
  destruct (truthy_opt apiKey); simpl.
  - split; [wf_solve |].
    right. eexists. split; [reflexivity |].
    intros r c0 cl0.
    destruct r as [[text|]|e]; simpl;
      [destruct (truthy text); simpl;
         [destruct (JSON_parse text) as [[[|x parsed]|]|]; simpl |] | |].
    all: split; [wf_solve | reflexivity].
  - split; [wf_solve | now left].
Qed.

Lemma well_formed_set_result (a b : App) (v : jsstring) :
  well_formed a ->
  selectedIndex (state a) < length (results (state a)) ->
  state b = with_results (state a)
              (array_set (results (state a)) (selectedIndex (state a)) v) ->
  history b = history a ->
  well_formed b.
Proof.
  intros (Hdef & Hidx & Hty & Hhist) Hin Hs Hh.
  destruct (array_set_in_range _ (fun x => x <> None) (results (state a))
              (selectedIndex (state a)) v Hin Hdef) as [HF HL];
    [discriminate |].
  unfold well_formed, results_typed. rewrite Hs, Hh. simpl.
  split; [exact HF |]. split; [left; now rewrite HL |].
  split; [| exact Hhist].
  intros _. apply Hty. destruct (results (state a)); [simpl in Hin; lia | discriminate].
Qed.

Lemma run_handleRevise (w : World) :
  pending w = [] -> well_formed (app w) ->
  let w1 := run (handleRevise (app w)) w in
  well_formed (app w1) /\ settles_well w1.
Proof.
  destruct w as [a p cl c]. simpl. intros -> Hwf.
  unfold handleRevise.
  destruct (getCurrentResult (state a)) as [current|] eqn:Hc;
    [| split; [exact Hwf | now left]].
  destruct (type (state a)) as [ty|] eqn:Hty;
    [| split; [exact Hwf | now left]].
  match goal with |- context [if ?g then _ else _] => destruct g end;
    [| split; [exact Hwf | now left]].
  assert (Hin : selectedIndex (state a) < length (results (state a))).
  { apply getCurrentResult_nth in Hc.
    apply nth_error_Some. congruence. }
  pose proof Hwf as (Hdef & Hidx & Htyped & Hhist).
  unfold reviseDocument.
  destruct (truthy_opt apiKey); simpl.
  - split; [wf_solve |].
    right. eexists. split; [reflexivity |].
    intros r c0 cl0.
    destruct r as [[text|]|e]; simpl;
      [destruct (truthy text); simpl | |].
    all: split; [| reflexivity].
    all: first
      [ now apply (well_formed_set_result a _ text Hwf Hin)
      | wf_solve ].
  - split; [wf_solve | now left].
Qed.

Lemma serial_event_keeps (e : Event) (w : World) :
  pending w = [] -> well_formed (app w) ->
  well_formed (app (step e w)) /\ settles_well (step e w).
Proof.
  intros Hp Hwf.
  destruct e; unfold step;
    try (destruct (offered _ (app w)) eqn:Hoff;
         [| split; [exact Hwf | now left]]);
    try exact (run_handleGenerate w ty Hp Hwf);
    try exact (run_handleRevise w Hp Hwf);
    destruct w as [a p cl c]; simpl in Hp, Hwf; subst p;
    pose proof Hwf as (Hdef & Hidx & Htyped & Hhist);
    unfold handler; cbn [app pending calls clock] in *.
  - simpl. split; [wf_solve | now left].
  - destruct (nth_error (history a) n) as [item|] eqn:E; simpl;
      [| split; [exact Hwf | now left]].
    split; [| now left].
    assert (Hitem : generatedText item <> None).
    { apply nth_error_In in E. rewrite Forall_forall in Hhist. now apply Hhist. }
    unfold well_formed, results_typed; simpl.
    split; [constructor; [exact Hitem | constructor] |].
    split; [left; lia |]. split; [intros _; discriminate | exact Hhist].
  - simpl. split; [exact Hwf | now left].
  - destruct k; unfold saveItem;
      match goal with |- context [if ?g then _ else _] => destruct g end;
      simpl; (split; [exact Hwf | now left]).
  - simpl. split; [| now left].
    unfold offered, has_results in Hoff. simpl in Hoff.
    apply andb_prop in Hoff. destruct Hoff as [_ Hlt].
    apply Nat.ltb_lt in Hlt.
    unfold well_formed, results_typed; simpl.
    split; [exact Hdef |]. split; [now left |]. split; assumption.
  - unfold handleCopy. simpl.
    destruct (truthy_opt (getCurrentResult (state a))); simpl;
      (split; [exact Hwf | now left]).
  - simpl. split; [exact Hwf | now left].
  - simpl. split; [exact Hwf | now left].
  - simpl. split; [exact Hwf | now left].
  - unfold handleDiscardRevision. simpl.
    destruct (previousVersion a) as [pv|]; [| split; [exact Hwf | now left]].
    destruct (truthy pv); simpl; [| split; [exact Hwf | now left]].
    split; [| now left].
    unfold offered, has_results in Hoff. simpl in Hoff.
    apply andb_prop in Hoff. destruct Hoff as [Hoff _].
    apply andb_prop in Hoff. destruct Hoff as [Hlen _].
    apply Nat.ltb_lt in Hlen.
    assert (Hin : selectedIndex (state a) < length (results (state a))).
    { destruct Hidx as [H | [H _]]; [exact H |].
      rewrite H in Hlen. simpl in Hlen. lia. }
    now apply (well_formed_set_result a _ pv Hwf Hin).
  - simpl. split; [exact Hwf | now left].
  - simpl. split; [exact Hwf | now left].
  - destruct n; simpl; (split; [exact Hwf | now left]).
  - simpl. split; [exact Hwf | now left].
  - simpl. split; [wf_solve | now left].
Qed.

Lemma serial_well_formed (w : World) :
  serial w -> well_formed (app w) /\ settles_well w.
Proof.
  induction 1 as [| e w Hs [IHa IHp] Hidle | r w Hs [IHa IHp]
                  | d w Hs [IHa IHp] | w Hs [IHa IHp]].
  - split; [| now left].
    unfold well_formed, results_typed; simpl.
    split; [constructor |]. split; [right; now split |].
    split; [intros H; now elim H | constructor].
  - now apply serial_event_keeps.
  - destruct IHp as [Hidle | (k & Hk & Hsettle)].
    + now apply serial_event_keeps.
    + unfold step. rewrite Hk. simpl.
      destruct (Hsettle r (clock w) (calls w)) as [Hwf Hpend].
      split; [exact Hwf | now left].
  - unfold step. simpl. split; [exact IHa |].
    destruct IHp as [Hidle | (k & Hk & Hsettle)]; [now left | right].
    exists k. split; [exact Hk | exact Hsettle].
  - unfold step. simpl. split; [| now left].
    destruct IHa as (_ & _ & _ & Hhist).
    unfold well_formed, results_typed; simpl.
    split; [constructor |]. split; [right; now split |].
    split; [intros H; now elim H | exact Hhist].
Qed.

(** On schedules without overlap the two invariants of the generation
    state hold. *)
Lemma serial_invariants (w : World) :
  serial w ->
  selection_valid (state (app w)) /\ results_typed (state (app w)).
Proof.
  intros Hs. apply well_formed_valid. now apply serial_well_formed.
Qed.

Lemma serial_reachable (w : World) : serial w -> reachable w.
Proof. induction 1; now constructor. Qed.

(** A schedule without overlap, run from a world that such a schedule
    reaches, reaches such a world. *)
Lemma serial_steps (es : list Event) (w : World) :
  serial w -> overlap_free es w = true -> serial (steps es w).
Proof.
  revert w. induction es as [|e es IH]; intros w Hs Hfree; [exact Hs |].
  simpl in Hfree. apply andb_prop in Hfree. destruct Hfree as [He Hrest].
  change (steps (e :: es) w) with (steps es (step e w)).
  apply IH; [| exact Hrest].
  assert (Hidle : (match pending w with [] => true | _ :: _ => false end) = true
                  -> pending w = []).
  { destruct (pending w); [reflexivity | discriminate]. }
  destruct e as [ | | | | | | | | | | | | | | n r | d | ];
    try (apply serial_event; [exact Hs | now apply Hidle]).
  - destruct n as [|n].
    + now apply serial_settle.
    + apply serial_event; [exact Hs | now apply Hidle].
  - now apply serial_tick.
  - now apply serial_reload.
Qed.

(* ================================================================ *)
(** * Further properties of the services *)

(** X1. Whatever the network does, [generateDocument] either returns a
    non-empty array or throws an error that carries a non-empty message:
    the caller never sees an empty result list nor an empty error text. *)
Theorem generateDocument_result_shape
  (net : Request -> NetReply) (now : N)
  (inp : DocumentInputs) (ty : DocumentType) :
  match outcome net now (generateDocument inp ty) with
  | inl res => res <> []
  | inr err => exists m, message err = Some m /\ truthy m = true
  end.
Proof.
  unfold generateDocument.
  destruct (truthy_opt apiKey); simpl.
  2: { eexists. split; [reflexivity | now vm_compute]. }
  destruct (net _) as [[text|]|e]; simpl.
  - destruct (truthy text) eqn:Ht; simpl.
    + destruct (JSON_parse text) as [[[|x parsed]|]|]; simpl; discriminate.
    + eexists. split; [reflexivity |]. apply or_else_is_truthy. now vm_compute.
  - eexists. split; [reflexivity |]. apply or_else_is_truthy. now vm_compute.
  - eexists. split; [reflexivity |]. apply or_else_is_truthy. now vm_compute.
Qed.

(** X2. With a credential, [generateDocument] sends exactly one request
    whatever the reply is (no retry), and a rejected call is re-thrown with
    the provider's message when it has a non-empty one and with the generic
    text otherwise. *)
Theorem generateDocument_failure_policy
  (Hkey : truthy_opt apiKey = true)
  (net : Request -> NetReply) (now : N)
  (inp : DocumentInputs) (ty : DocumentType) :
  requests net now (generateDocument inp ty) = [generation_request inp ty]
  /\ (forall m, truthy m = true ->
        resume (generateDocument inp ty) (Rejected {| message := Some m |})
        = Throw (Error m))
  /\ (forall e, truthy_opt (message e) = false ->
        resume (generateDocument inp ty) (Rejected e)
        = Throw (Error (lit "خطایی در برقراری ارتباط با هوش مصنوعی رخ داد."))).
Proof.
  unfold generateDocument. rewrite Hkey. simpl.
  split; [| split].
  - destruct (net _) as [[text|]|e]; simpl; try reflexivity.
    destruct (truthy text); simpl; [| reflexivity].
    destruct (JSON_parse text) as [[parsed|]|]; simpl; try reflexivity.
    destruct (0 <? length parsed)%nat; reflexivity.
  - intros m Hm. now rewrite (or_else_truthy m _ Hm).
  - intros [[m|]] He; simpl in He; unfold or_else; simpl; [now rewrite He | reflexivity].
Qed.

(** X3. With a credential, [reviseDocument] sends exactly one request
    whatever the reply is; a non-empty response text is returned as it is,
    without any parsing; a response without text, or with the empty text,
    fails with the no-response error; a rejected call is re-thrown with the
    provider's message or, when it has none, with the generic text. *)
Theorem reviseDocument_reply
  (Hkey : truthy_opt apiKey = true)
  (net : Request -> NetReply) (now : N)
  (draft feedback : jsstring) (ty : DocumentType) :
  requests net now (reviseDocument draft feedback ty)
  = [revision_request draft feedback ty]
  /\ (forall text, truthy text = true ->
        resume (reviseDocument draft feedback ty) (Resolved (Some text))
        = Ret text)
  /\ (forall text, truthy_opt text = false ->
        resume (reviseDocument draft feedback ty) (Resolved text)
        = Throw (Error (lit "پاسخی از مدل دریافت نشد.")))
  /\ (forall m, truthy m = true ->
        resume (reviseDocument draft feedback ty)
          (Rejected {| message := Some m |})
        = Throw (Error m))
  /\ (forall e, truthy_opt (message e) = false ->
        resume (reviseDocument draft feedback ty) (Rejected e)
        = Throw (Error (lit "خطایی در ویرایش متن رخ داد."))).
Proof.
  unfold reviseDocument. rewrite Hkey. simpl.
  split; [| split; [| split; [| split]]].
  - destruct (net _) as [[text|]|e]; simpl; try reflexivity.
    destruct (truthy text); reflexivity.
  - intros text Ht. now rewrite Ht.
  - intros [text|] Ht; simpl in *; [rewrite Ht |]; simpl;
      now rewrite or_else_truthy by (vm_compute; reflexivity).
  - intros m Hm. now rewrite (or_else_truthy m _ Hm).
  - intros [[m|]] He; simpl in He; unfold or_else; simpl; [now rewrite He | reflexivity].
Qed.

(** X4. A minutes request is built from the body alone: two inputs with
    the same body give the same call of [generateDocument], whatever their
    recipient name, recipient role and subject are. *)
Theorem minutes_request_uses_body_only
  (inp inp' : DocumentInputs) (Hbody : body inp = body inp') :
  generation_request inp MINUTES = generation_request inp' MINUTES
  /\ generateDocument inp MINUTES = generateDocument inp' MINUTES.
Proof.
  assert (Hrq : generation_request inp MINUTES = generation_request inp' MINUTES).
  { unfold generation_request. now rewrite Hbody. }
  split; [exact Hrq |].
  unfold generateDocument. now rewrite Hrq.
Qed.


(* ================================================================ *)
(** * Further properties of the handlers *)

Lemma array_set_other (A : Type) (l : list (option A)) (i j : nat) (v : A) :
  i < length l -> j <> i ->
  nth_error (array_set l i v) j = nth_error l j.
Proof.
  revert l j. induction i as [|i IH]; intros [|x l] [|j] Hi Hj; simpl in *;
    try lia; try reflexivity.
  apply IH; lia.
Qed.

(** X5. With a credential configured, a click on a generate button that
    passes the guard sends one request, clears the revision state (no
    snapshot, feedback box closed and empty), shows the loading state and
    leaves the inputs, the saved lists, the history and isRevising alone.  Whenever its reply comes, whatever the page has
    become by then: when the service returns, the results are the returned
    variations and exactly one item is put in front of the history of that
    moment (cut to ten); it holds the first variation, the requested type,
    and as summary the subject of the click-time inputs or, if that is
    empty, the first 50 code units of the body followed by three dots (never
    an empty text).  When the service throws, the error shown is the thrown
    message and the history is not touched.  In both cases the inputs, the
    saved lists and the revision state are those of the page at the reply:
    the reply itself does not clear them. *)
Theorem generate_click_then_reply
  (Hkey : truthy_opt apiKey = true)
  (w : World) (ty : DocumentType)
  (Hform : truthy (trim (body (inputs (app w)))) = true
           \/ truthy (trim (subject (inputs (app w)))) = true) :
  let a := app w in
  let w1 := run (handleGenerate a ty) w in
  let summary :=
    if truthy (subject (inputs a)) then subject (inputs a)
    else substring0 50 (body (inputs a)) ++ lit "..." in
  app w1
  = {| inputs := inputs a; savedData := savedData a;
       state := loadingState ty; copied := copied a;
       history := history a; feedbackText := [];
       isRevising := isRevising a; previousVersion := None;
       showFeedbackInput := false |}
  /\ calls w1 = calls w ++ [generation_request (inputs a) ty]
  /\ summary <> []
  /\ forall (w2 : World) (n : nat) (r : NetReply),
       nth_error (pending w2) n = nth_error (pending w1) (length (pending w)) ->
       let b := app w2 in
       let a2 := app (step (Settle n r) w2) in
       (inputs a2, savedData a2, copied a2, previousVersion a2,
        feedbackText a2, showFeedbackInput a2, isRevising a2)
       = (inputs b, savedData b, copied b, previousVersion b,
          feedbackText b, showFeedbackInput b, isRevising b)
       /\ match outcome (fun _ => r) 0 (generateDocument (inputs a) ty) with
          | inl res =>
              state a2
              = {| isLoading := false; error := None;
                   results := map Some res; selectedIndex := 0;
                   type := Some ty |}
              /\ exists item,
                   history a2 = firstn 10 (item :: history b)
                   /\ generatedText item = nth_error res 0
                   /\ itemType item = ty
                   /\ originalText item = summary
          | inr err =>
              state a2
              = {| isLoading := false; error := message err;
                   results := []; selectedIndex := 0; type := None |}
              /\ history a2 = history b
          end.
Proof.
  cbv zeta.
  assert (Hsummary :
    (if truthy (subject (inputs (app w))) then subject (inputs (app w))
     else substring0 50 (body (inputs (app w))) ++ lit "...") <> []).
  { destruct (truthy (subject (inputs (app w)))) eqn:Hs.
    - now apply truthy_nonempty.
    - intros H. apply app_eq_nil in H. destruct H as [_ H].
      vm_compute in H. discriminate. }
  assert (Hkeep : forall (m : option jsstring) (d d2 : jsstring),
            truthy d = true ->
            Some (or_else (Some (or_else m d)) d2) = Some (or_else m d)).
  { intros m d d2 Hd. f_equal. apply or_else_truthy.
    now apply or_else_is_truthy. }
  unfold handleGenerate. rewrite (form_guard_passes (app w) Hform).
  unfold generateDocument. rewrite Hkey. simpl.
  split; [reflexivity |]. split; [reflexivity |].
  split; [exact Hsummary |].
  intros w2 n r Hn.
  rewrite nth_error_app2, Nat.sub_diag in Hn by lia. simpl in Hn.
  unfold step. rewrite Hn.
  destruct r as [[text|]|e]; simpl.
  - destruct (truthy text) eqn:Ht; simpl.
    + destruct (JSON_parse text) as [[[|x parsed]|]|]; simpl.
      all: split; [reflexivity |]; split; [reflexivity |].
      all: eexists; split; [reflexivity |]; simpl.
      all: repeat split.
    + split; [reflexivity |]. split; [| reflexivity].
      rewrite Hkeep by (vm_compute; reflexivity). reflexivity.
  - split; [reflexivity |]. split; [| reflexivity].
    rewrite Hkeep by (vm_compute; reflexivity). reflexivity.
  - split; [reflexivity |]. split; [| reflexivity].
    rewrite Hkeep by (vm_compute; reflexivity). reflexivity.
Qed.


(** X6. Accepting a revision makes it permanent: the results are left as
    they are, the snapshot is cleared, and a discard after it changes
    nothing (its button is not even on offer any more). *)
Theorem accept_then_discard_is_noop
  (net : Request -> NetReply) (now : N) (a : App) :
  let a1 := complete net now handleAcceptRevision a in
  state a1 = state a
  /\ previousVersion a1 = None
  /\ showFeedbackInput a1 = false /\ feedbackText a1 = []
  /\ complete net now (handleDiscardRevision a1) a1 = a1
  /\ offered Click_discard a1 = false.
Proof.
  cbv zeta. unfold handleAcceptRevision. simpl.
  repeat split.
  unfold offered. simpl. now rewrite andb_false_r.
Qed.

(** X7. With a credential configured, a click on the revise button that
    passes the guard keeps the selected text as the snapshot, sets
    isRevising and sends one request; the generation state stays as it is.
    Whenever a reply with a non-empty revised text comes, whatever the page has become by then, the results shown are
    the results of the click-time render with the slot selected then
    replaced by the revised text: as many results as at the click, every
    other slot as at the click.  The selected index, the type, the error and
    loading flags, the inputs, the saved lists, the history, the snapshot
    and the open feedback box are those of the page at the reply; the
    feedback text is emptied and isRevising is off. *)
Theorem revise_click_then_reply
  (Hkey : truthy_opt apiKey = true)
  (w : World) (current revised : jsstring) (ty : DocumentType)
  (Hcur : getCurrentResult (state (app w)) = Some current)
  (Htruthy : truthy current = true)
  (Hty : type (state (app w)) = Some ty)
  (Hfeedback : truthy (trim (feedbackText (app w))) = true)
  (Hrevised : truthy revised = true) :
  let a := app w in
  let w1 := run (handleRevise a) w in
  app w1
  = {| inputs := inputs a; savedData := savedData a; state := state a;
       copied := copied a; history := history a;
       feedbackText := feedbackText a; isRevising := true;
       previousVersion := Some current;
       showFeedbackInput := showFeedbackInput a |}
  /\ calls w1 = calls w ++ [revision_request current (feedbackText a) ty]
  /\ forall (w2 : World) (n : nat),
       nth_error (pending w2) n = nth_error (pending w1) (length (pending w)) ->
       let b := app w2 in
       let a2 := app (step (Settle n (Resolved (Some revised))) w2) in
       length (results (state a2)) = length (results (state a))
       /\ nth_error (results (state a2)) (selectedIndex (state a))
          = Some (Some revised)
       /\ (forall j, j <> selectedIndex (state a) ->
             nth_error (results (state a2)) j = nth_error (results (state a)) j)
       /\ (selectedIndex (state a2), type (state a2), error (state a2),
           isLoading (state a2))
          = (selectedIndex (state b), type (state b), error (state b),
             isLoading (state b))
       /\ (inputs a2, savedData a2, copied a2, history a2, previousVersion a2,
           showFeedbackInput a2)
          = (inputs b, savedData b, copied b, history b, previousVersion b,
             showFeedbackInput b)
       /\ feedbackText a2 = [] /\ isRevising a2 = false.
Proof.
  cbv zeta.
  assert (Hin : selectedIndex (state (app w)) < length (results (state (app w)))).
  { apply getCurrentResult_nth in Hcur. apply nth_error_Some. congruence. }
  unfold handleRevise. rewrite Hcur, Hty, Htruthy, Hfeedback.
  unfold reviseDocument. rewrite Hkey. simpl.
  split; [reflexivity |]. split; [reflexivity |].
  intros w2 n Hn.
  rewrite nth_error_app2, Nat.sub_diag in Hn by lia. simpl in Hn.
  unfold step. rewrite Hn. simpl. rewrite Hrevised. simpl.
  split; [rewrite array_set_length; lia |].
  split; [apply array_set_nth |].
  split; [intros j Hj; now apply array_set_other |].
  repeat split.
Qed.

(** X8. When the selected result is missing or is the empty text (an
    empty variation returned by the service, for instance), copy, export and
    revise all do nothing: no flag is set, no file is offered, no request is
    sent. *)
Theorem empty_variation_is_inert
  (a : App) (Hempty : truthy_opt (getCurrentResult (state a)) = false) :
  handleCopy a = Ret tt
  /\ handleDownloadWord a = None
  /\ handleRevise a = Ret tt.
Proof.
  unfold handleCopy, handleDownloadWord, handleRevise.
  rewrite Hempty.
  split; [reflexivity |]. split; [reflexivity |].
  destruct (getCurrentResult (state a)) as [current|]; [| reflexivity].
  simpl in Hempty. rewrite Hempty.
  destruct (type (state a)); reflexivity.
Qed.

Lemma isFormValid_guard (a : App) :
  isFormValid a
  = negb (negb (truthy (trim (body (inputs a))))
          && negb (truthy (trim (subject (inputs a))))).
Proof.
  unfold isFormValid.
  destruct (trim (body (inputs a))), (trim (subject (inputs a))); reflexivity.
Qed.

(** X9. The button and the handler agree: whenever a generate button is
    enabled and a credential is configured, the click puts the page in the
    loading state of the requested type with the revision state cleared,
    sends exactly one request, built from the inputs on screen, and leaves
    exactly one more handler waiting for a reply. *)
Theorem enabled_generate_starts_one_request
  (Hkey : truthy_opt apiKey = true)
  (w : World) (ty : DocumentType)
  (Henabled : offered (Click_generate ty) (app w) = true) :
  let w1 := step (Click_generate ty) w in
  state (app w1) = loadingState ty
  /\ previousVersion (app w1) = None
  /\ showFeedbackInput (app w1) = false
  /\ feedbackText (app w1) = []
  /\ calls w1 = calls w ++ [generation_request (inputs (app w)) ty]
  /\ length (pending w1) = S (length (pending w)).
Proof.
  cbv zeta. unfold step. rewrite Henabled.
  unfold offered in Henabled. rewrite isFormValid_guard in Henabled.
  apply negb_true_iff in Henabled.
  apply orb_false_iff in Henabled. destruct Henabled as [_ Hform].
  apply negb_false_iff, negb_true_iff in Hform.
  unfold handler, handleGenerate. rewrite Hform.
  unfold generateDocument. rewrite Hkey. simpl.
  repeat split. rewrite length_app. simpl. lia.
Qed.


(* ================================================================ *)
(** * The saved lists *)

Lemma with_saved_same (k : SavedKind) (d : SavedData) :
  with_saved k d (saved k d) = d.
Proof. now destruct k, d. Qed.

Lemma with_saved_twice (k : SavedKind) (d : SavedData) (l l' : list jsstring) :
  with_saved k (with_saved k d l) l' = with_saved k d l'.
Proof. now destruct k. Qed.

Lemma saved_with_saved_other (k k' : SavedKind) (d : SavedData)
  (l : list jsstring) :
  k' <> k -> saved k' (with_saved k d l) = saved k' d.
Proof. destruct k, k'; simpl; congruence. Qed.

Lemma apply_setSavedData_same (a : App) (f : SavedData -> SavedData) :
  f (savedData a) = savedData a -> apply (setSavedData f) a = a.
Proof. intros H. destruct a. simpl in *. now rewrite H. Qed.

Lemma negb_eqb_true (s t : jsstring) : negb (JS.eqb s t) = true <-> s <> t.
Proof.
  rewrite negb_true_iff. split.
  - intros H Heq. apply eqb_eq in Heq. congruence.
  - intros H. destruct (JS.eqb s t) eqn:E; [| reflexivity].
    apply eqb_eq in E. contradiction.
Qed.

Lemma filter_absent (l : list jsstring) (v : jsstring) :
  ~ In v l -> filter (fun item => negb (JS.eqb item v)) l = l.
Proof.
  induction l as [|x l IH]; simpl; intros H; [reflexivity |].
  assert (Hx : negb (JS.eqb x v) = true).
  { apply negb_eqb_true. intros Heq. apply H. now left. }
  rewrite Hx, IH; [reflexivity |].
  intros Hin. apply H. now right.
Qed.

Lemma filter_own (v : jsstring) :
  filter (fun item => negb (JS.eqb item v)) [v] = [].
Proof.
  simpl. assert (H : JS.eqb v v = true) by now apply eqb_eq.
  now rewrite H.
Qed.

(** X10. [removeItem] removes the value, by exact match, from its list:
    afterwards the value is not there, every other entry is there exactly
    when it was, the other list and the rest of the page are untouched;
    removing a value that is not stored, or removing twice, changes
    nothing. *)
Theorem removeItem_removes_exact_matches
  (net : Request -> NetReply) (now : N)
  (a : App) (k : SavedKind) (value : jsstring) :
  let a1 := complete net now (removeItem k value) a in
  ~ In value (saved k (savedData a1))
  /\ (forall s, s <> value ->
        (In s (saved k (savedData a1)) <-> In s (saved k (savedData a))))
  /\ (forall k', k' <> k -> saved k' (savedData a1) = saved k' (savedData a))
  /\ (~ In value (saved k (savedData a)) -> a1 = a)
  /\ complete net now (removeItem k value) a1 = a1
  /\ (inputs a1, state a1, history a1, previousVersion a1)
     = (inputs a, state a, history a, previousVersion a).
Proof.
  cbv zeta. unfold removeItem. simpl.
  rewrite saved_with_saved.
  split.
  { intros Hin. apply filter_In in Hin. destruct Hin as [_ Hne].
    apply negb_eqb_true in Hne. congruence. }
  split.
  { intros s Hs. rewrite filter_In. split; [intros [Hin _]; exact Hin |].
    intros Hin. split; [exact Hin | now apply negb_eqb_true]. }
  split; [intros k' Hk; now apply saved_with_saved_other |].
  split.
  { intros Hnin. rewrite (filter_absent _ _ Hnin), with_saved_same.
    now destruct a. }
  split; [| reflexivity].
  f_equal. rewrite with_saved_twice. f_equal.
  apply filter_absent.
  intros Hin. apply filter_In in Hin. destruct Hin as [_ Hne].
  apply negb_eqb_true in Hne. congruence.
Qed.

(** X11. Saving a new value and then removing its trimmed text gives back
    the page as it was.  Removal does not trim: removing by the text as it
    was typed, when that differs from its trimmed form, leaves the entry
    stored. *)
Theorem save_then_remove_round_trip
  (net : Request -> NetReply) (now : N)
  (a : App) (k : SavedKind) (value : jsstring)
  (Hnonblank : trim value <> [])
  (Hnew : ~ In (trim value) (saved k (savedData a))) :
  let a1 := complete net now (saveItem a k value) a in
  complete net now (removeItem k (trim value)) a1 = a
  /\ (value <> trim value ->
      ~ In value (saved k (savedData a)) ->
      complete net now (removeItem k value) a1 = a1
      /\ In (trim value) (saved k (savedData a1))).
Proof.
  cbv zeta. rewrite (saveItem_appends a k value Hnonblank Hnew).
  unfold removeItem. simpl. rewrite saved_with_saved.
  split.
  - rewrite filter_app, (filter_absent _ _ Hnew), filter_own, app_nil_r.
    rewrite with_saved_twice, with_saved_same. now destruct a.
  - intros Hdiff Hnin.
    assert (Hnin' : ~ In value (saved k (savedData a) ++ [trim value])).
    { intros Hin. apply in_app_or in Hin. destruct Hin as [Hin | [Heq | []]];
        [contradiction | congruence]. }
    rewrite (filter_absent _ _ Hnin'), with_saved_twice.
    split; [reflexivity |].
    apply in_or_app. right. now left.
Qed.

(** *** [trim] is idempotent *)

Lemma trimStart_length (s : jsstring) : length (trimStart s) <= length s.
Proof.
  induction s as [|c t IH]; simpl; [lia |].
  destruct (is_space c); simpl; lia.
Qed.

Lemma trimStart_fixed_head (c : N) (t : jsstring) :
  trimStart (c :: t) = c :: t -> is_space c = false.
Proof.
  simpl. destruct (is_space c); [| reflexivity].
  intros H. pose proof (trimStart_length t) as Hl.
  rewrite H in Hl. simpl in Hl. lia.
Qed.

Lemma trimStart_idem (s : jsstring) : trimStart (trimStart s) = trimStart s.
Proof.
  induction s as [|c t IH]; simpl; [reflexivity |].
  destruct (is_space c) eqn:E; [exact IH |].
  simpl. now rewrite E.
Qed.

Lemma trimStart_split (s : jsstring) : exists p, s = p ++ trimStart s.
Proof.
  induction s as [|c t [p IH]]; simpl; [now exists [] |].
  destruct (is_space c); [| now exists []].
  exists (c :: p). simpl. now rewrite <- IH.
Qed.

Lemma trimEnd_split (s : jsstring) : exists q, s = trimEnd s ++ q.
Proof.
  unfold trimEnd. destruct (trimStart_split (rev s)) as [p Hp].
  exists (rev p). rewrite <- rev_app_distr, <- Hp. now rewrite rev_involutive.
Qed.

Lemma trimEnd_idem (s : jsstring) : trimEnd (trimEnd s) = trimEnd s.
Proof. unfold trimEnd. now rewrite rev_involutive, trimStart_idem. Qed.

Lemma trimStart_trimEnd (y : jsstring) :
  trimStart y = y -> trimStart (trimEnd y) = trimEnd y.
Proof.
  intros Hy. destruct (trimEnd_split y) as [q Hq].
  destruct (trimEnd y) as [|c t] eqn:E; [reflexivity |].
  rewrite Hq in Hy. simpl in Hy.
  assert (Hc : is_space c = false) by now apply (trimStart_fixed_head c (t ++ q)).
  simpl. now rewrite Hc.
Qed.

Lemma trim_idem (s : jsstring) : trim (trim s) = trim s.
Proof.
  unfold trim.
  rewrite (trimStart_trimEnd (trimStart s) (trimStart_idem s)).
  apply trimEnd_idem.
Qed.


(** *** The saved lists stay clean *)

Lemma saved_clean_apply (u : Update) :
  match u with
  | setSavedData _ => False
  | _ => True
  end ->
  forall a, saved_clean a -> saved_clean (apply u a).
Proof. unfold saved_clean. destruct u; simpl; intros Hu a Ha; tauto. Qed.

Ltac keeps_saved :=
  repeat first
    [ exact I
    | apply keeps_generateDocument
    | apply keeps_reviseDocument
    | apply keeps_bind; [| intros ?]
    | apply keeps_try_catch; [| intros ?]
    | apply keeps_try_finally
    | intros ?
    | apply keeps_set; apply saved_clean_apply; exact I ].

Lemma handler_keeps_saved (e : Event) (a : App) :
  (forall k, e <> Click_save k) ->
  keeps saved_clean (handler e a).
Proof.
  intros Hnot. destruct e; unfold handler.
  - keeps_saved.
  - destruct (nth_error (history a) n); [unfold loadFromHistory |]; keeps_saved.
  - unfold handleInputChange. keeps_saved.
  - now elim (Hnot k).
  - unfold handleGenerate.
    match goal with |- context [if ?c then _ else _] => destruct c end;
      [exact I |].
    unfold addToHistory. keeps_saved.
  - keeps_saved.
  - unfold handleCopy. destruct (truthy_opt _); keeps_saved.
  - keeps_saved.
  - keeps_saved.
  - unfold handleAcceptRevision. keeps_saved.
  - unfold handleDiscardRevision. destruct (previousVersion a) as [pv|];
      [destruct (truthy pv) |]; unfold updateCurrentResult; keeps_saved.
  - keeps_saved.
  - unfold handleRevise.
    destruct (getCurrentResult (state a)); [| exact I].
    destruct (type (state a)); [| exact I].
    match goal with |- context [if ?c then _ else _] => destruct c end;
      [| exact I].
    unfold updateCurrentResult. keeps_saved.
  - keeps_saved.
  - exact I.
  - exact I.
  - exact I.
Qed.

Lemma NoDup_snoc (l : list jsstring) (v : jsstring) :
  NoDup l -> ~ In v l -> NoDup (l ++ [v]).
Proof.
  intros Hl Hv. apply NoDup_app; [exact Hl | repeat constructor; intros [] |].
  intros x Hx [Hxv | []]. congruence.
Qed.

Lemma saveItem_keeps_clean (a : App) (k : SavedKind) (value : jsstring)
  (w : World) :
  app w = a -> saved_clean a ->
  saved_clean (app (run (saveItem a k value) w))
  /\ pending (run (saveItem a k value) w) = pending w.
Proof.
  intros Hw Hclean. unfold saveItem.
  destruct (negb (truthy (trim value))) eqn:Hblank; simpl;
    [split; [now rewrite Hw | reflexivity] |].
  destruct (includes (saved k (savedData a)) (trim value)) eqn:Hinc; simpl;
    [split; [now rewrite Hw | reflexivity] |].
  split; [| reflexivity]. rewrite Hw.
  apply negb_false_iff, truthy_nonempty in Hblank.
  assert (Hnin : ~ In (trim value) (saved k (savedData a))).
  { intros Hin. apply includes_In in Hin. congruence. }
  assert (Hok : stored_ok (trim value)) by (split; [exact Hblank | apply trim_idem]).
  destruct Hclean as (Hr & Hs & Hfr & Hfs).
  unfold saved_clean. destruct k; simpl in *.
  - repeat split; try assumption; [now apply NoDup_snoc |].
    apply Forall_app. split; [assumption | now constructor].
  - repeat split; try assumption; [now apply NoDup_snoc |].
    apply Forall_app. split; [assumption | now constructor].
Qed.

Lemma step_keeps_saved (e : Event) (w : World) :
  saved_clean (app w) ->
  Forall (fun k => forall r, keeps saved_clean (k r)) (pending w) ->
  saved_clean (app (step e w))
  /\ Forall (fun k => forall r, keeps saved_clean (k r)) (pending (step e w)).
Proof.
  intros Hw Hp.
  assert (Hdefault :
    (forall k, e <> Click_save k) ->
    saved_clean
      (app (if offered e (app w) then run (handler e (app w)) w else w))
    /\ Forall (fun k => forall r, keeps saved_clean (k r))
         (pending (if offered e (app w) then run (handler e (app w)) w else w))).
  { intros Hnot. destruct (offered e (app w)); [| now split].
    apply run_keeps; [now apply handler_keeps_saved | exact Hw | exact Hp]. }
  destruct e; try (apply Hdefault; discriminate); unfold step.
  - simpl offered. cbv iota.
    destruct k; unfold handler;
      match goal with
      | |- context [run (saveItem ?a ?k ?v) ?w] =>
          destruct (saveItem_keeps_clean a k v w eq_refl Hw) as [Hc Hq]
      end;
      (split; [exact Hc | now rewrite Hq]).
  - destruct (nth_error (pending w) n) as [k|] eqn:Ek; [| now split].
    apply run_keeps; simpl.
    + apply nth_error_In in Ek. rewrite Forall_forall in Hp. now apply Hp.
    + exact Hw.
    + now apply remove_nth_Forall.
  - simpl. split; [exact Hw | constructor].
Qed.

(** X12. In every state the page can reach, under any order of clicks and
    replies, each saved list holds no value twice, and every stored value is
    non-empty and has no white space at its ends. *)
Theorem saved_lists_stay_clean (w : World) (Hreach : reachable w) :
  NoDup (recipients (savedData (app w)))
  /\ NoDup (subjects (savedData (app w)))
  /\ (forall s, In s (recipients (savedData (app w)))
                \/ In s (subjects (savedData (app w))) ->
                s <> [] /\ trim s = s).
Proof.
  assert (H : saved_clean (app w)
              /\ Forall (fun k => forall r, keeps saved_clean (k r)) (pending w)).
  { induction Hreach as [| e w Hr [IHa IHp]].
    - split; [| constructor].
      unfold saved_clean. simpl. repeat split; constructor.
    - now apply step_keeps_saved. }
  destruct H as [(Hr & Hs & Hfr & Hfs) _].
  split; [exact Hr |]. split; [exact Hs |].
  intros s [Hin | Hin].
  - rewrite Forall_forall in Hfr. now apply Hfr.
  - rewrite Forall_forall in Hfs. now apply Hfs.
Qed.


(* ================================================================ *)
(** * Requests *)

Lemma quiet_bind (A B : Type) (t : Task A) (f : A -> Task B) :
  quiet t -> (forall x, quiet (f x)) -> quiet (bind t f).
Proof.
  intros Ht Hf. induction t as [x | e | u k IH | k IH | rq k IH]; simpl in *;
    auto; try contradiction.
Qed.

Lemma quiet_try_catch (A : Type) (t : Task A) (h : JsError -> Task A) :
  quiet t -> (forall e, quiet (h e)) -> quiet (try_catch t h).
Proof.
  intros Ht Hh. induction t as [x | e | u k IH | k IH | rq k IH]; simpl in *;
    auto; try contradiction.
Qed.

Lemma quiet_try_finally (A : Type) (t : Task A) (f : Task unit) :
  quiet t -> quiet f -> quiet (try_finally t f).
Proof.
  intros Ht Hf. induction t as [x | e | u k IH | k IH | rq k IH]; simpl in *;
    auto; try contradiction; apply quiet_bind; auto; intros; exact I.
Qed.

Lemma quiet_one_shot (A : Type) (t : Task A) : quiet t -> one_shot t.
Proof.
  induction t as [x | e | u k IH | k IH | rq k IH]; simpl; auto;
    try contradiction.
Qed.

Lemma one_shot_bind (A B : Type) (t : Task A) (f : A -> Task B) :
  one_shot t -> (forall x, quiet (f x)) -> one_shot (bind t f).
Proof.
  intros Ht Hf. induction t as [x | e | u k IH | k IH | rq k IH]; simpl in *;
    auto.
  - now apply quiet_one_shot.
  - intros r. now apply quiet_bind.
Qed.

Lemma one_shot_after (A B : Type) (t : Task A) (f : A -> Task B) :
  quiet t -> (forall x, one_shot (f x)) -> one_shot (bind t f).
Proof.
  intros Ht Hf. induction t as [x | e | u k IH | k IH | rq k IH]; simpl in *;
    auto; try contradiction.
Qed.

Lemma one_shot_try_catch (A : Type) (t : Task A) (h : JsError -> Task A) :
  one_shot t -> (forall e, quiet (h e)) -> one_shot (try_catch t h).
Proof.
  intros Ht Hh. induction t as [x | e | u k IH | k IH | rq k IH]; simpl in *;
    auto.
  - now apply quiet_one_shot.
  - intros r. now apply quiet_try_catch.
Qed.

Lemma one_shot_try_finally (A : Type) (t : Task A) (f : Task unit) :
  one_shot t -> quiet f -> one_shot (try_finally t f).
Proof.
  intros Ht Hf. induction t as [x | e | u k IH | k IH | rq k IH]; simpl in *;
    auto.
  - apply quiet_one_shot, quiet_bind; [exact Hf | intros; exact I].
  - apply quiet_one_shot, quiet_bind; [exact Hf | intros; exact I].
  - intros r. now apply quiet_try_finally.
Qed.

Lemma one_shot_generateDocument inp ty : one_shot (generateDocument inp ty).
Proof.
  unfold generateDocument. destruct (truthy_opt apiKey); simpl; [| exact I].
  intros [[text|]|e]; simpl; try exact I.
  destruct (truthy text); simpl; [| exact I].
  destruct (JSON_parse text) as [[parsed|]|]; simpl; try exact I.
  destruct (0 <? length parsed)%nat; exact I.
Qed.

Lemma one_shot_reviseDocument draft feedback ty :
  one_shot (reviseDocument draft feedback ty).
Proof.
  unfold reviseDocument. destruct (truthy_opt apiKey); simpl; [| exact I].
  intros [[text|]|e]; simpl; try exact I.
  destruct (truthy text); exact I.
Qed.

Ltac one_shot_tac :=
  repeat first
    [ exact I
    | apply one_shot_generateDocument
    | apply one_shot_reviseDocument
    | apply one_shot_try_finally; [| exact I]
    | apply one_shot_try_catch; [| intros ?; exact I]
    | apply one_shot_bind; [| intros ?; simpl; try intros ?; exact I]
    | apply one_shot_after; [exact I | intros ?] ].

Lemma handler_one_shot (e : Event) (a : App) : one_shot (handler e a).
Proof.
  destruct e; unfold handler; try exact I.
  - destruct (nth_error (history a) n); exact I.
  - destruct k; unfold saveItem;
      match goal with |- context [if ?c then _ else _] => destruct c end;
      exact I.
  - unfold handleGenerate.
    match goal with |- context [if ?c then _ else _] => destruct c end;
      [exact I |].
    one_shot_tac.
  - unfold handleCopy. destruct (truthy_opt _); exact I.
  - unfold handleDiscardRevision. destruct (previousVersion a) as [pv|];
      [destruct (truthy pv) |]; exact I.
  - unfold handleRevise.
    destruct (getCurrentResult (state a)); [| exact I].
    destruct (type (state a)); [| exact I].
    match goal with |- context [if ?c then _ else _] => destruct c end;
      [| exact I].
    one_shot_tac.
Qed.

Lemma run_quiet (t : Task unit) (w : World) :
  quiet t -> calls (run t w) = calls w /\ pending (run t w) = pending w.
Proof.
  revert w. induction t as [x | e | u k IH | k IH | rq k IH]; simpl;
    intros w Ht; auto.
  - destruct (IH (with_app w (apply u (app w))) Ht) as [Hc Hp]. now split.
  - contradiction.
Qed.

Lemma run_one_shot (t : Task unit) (w : World) :
  one_shot t ->
  Forall (fun k => forall r, quiet (k r)) (pending w) ->
  length (calls (run t w)) <= S (length (calls w))
  /\ length (pending (run t w)) - length (pending w)
     = length (calls (run t w)) - length (calls w)
  /\ Forall (fun k => forall r, quiet (k r)) (pending (run t w)).
Proof.
  revert w. induction t as [x | e | u k IH | k IH | rq k IH]; simpl;
    intros w Ht Hp.
  - split; [lia |]. split; [lia | exact Hp].
  - split; [lia |]. split; [lia | exact Hp].
  - now apply (IH (with_app w (apply u (app w))) Ht).
  - apply IH; [apply Ht | exact Hp].
  - rewrite !length_app. simpl. split; [lia |]. split; [lia |].
    apply Forall_app. split; [exact Hp |]. constructor; [exact Ht | constructor].
Qed.

Lemma remove_nth_length (A : Type) (n : nat) (l : list A) :
  n < length l -> S (length (remove_nth n l)) = length l.
Proof.
  revert l. induction n as [|n IH]; intros [|x l] H; simpl in *; try lia.
  rewrite IH; lia.
Qed.

Lemma reachable_pending_quiet (w : World) :
  reachable w -> Forall (fun k => forall r, quiet (k r)) (pending w).
Proof.
  induction 1 as [| e w Hr IH]; [constructor |].
  assert (Hdefault :
    Forall (fun k => forall r, quiet (k r))
      (pending (if offered e (app w) then run (handler e (app w)) w else w))).
  { destruct (offered e (app w)); [| exact IH].
    now apply run_one_shot; [apply handler_one_shot |]. }
  destruct e; try exact Hdefault; unfold step.
  - destruct (nth_error (pending w) n) as [k|] eqn:Ek; [| exact IH].
    assert (Hk : quiet (k r)).
    { apply nth_error_In in Ek. rewrite Forall_forall in IH. now apply IH. }
    destruct (run_quiet (k r)
                {| app := app w; pending := remove_nth n (pending w);
                   calls := calls w; clock := clock w |} Hk) as [_ Hp].
    rewrite Hp. simpl. now apply remove_nth_Forall.
  - constructor.
Qed.

(** X13. No retry, no second call: in every state the page can reach, a
    reply, whatever it is, makes the page send no request and leaves one
    handler fewer waiting; and any other event sends at most one request,
    leaving one more handler waiting exactly when it does. *)
Theorem replies_send_no_request (w : World) (Hreach : reachable w) :
  (forall n r,
      calls (step (Settle n r) w) = calls w
      /\ (n < length (pending w) ->
          S (length (pending (step (Settle n r) w))) = length (pending w))
      /\ (length (pending w) <= n -> step (Settle n r) w = w))
  /\ (forall e,
      length (calls (step e w)) <= S (length (calls w))
      /\ length (pending (step e w)) - length (pending w)
         = length (calls (step e w)) - length (calls w)).
Proof.
  pose proof (reachable_pending_quiet w Hreach) as Hq.
  assert (Hsettle : forall n r,
      calls (step (Settle n r) w) = calls w
      /\ (n < length (pending w) ->
          S (length (pending (step (Settle n r) w))) = length (pending w))
      /\ (length (pending w) <= n -> step (Settle n r) w = w)).
  { intros n r. unfold step.
    destruct (nth_error (pending w) n) as [k|] eqn:Ek.
    - assert (Hk : quiet (k r)).
      { apply nth_error_In in Ek. rewrite Forall_forall in Hq. now apply Hq. }
      destruct (run_quiet (k r)
                  {| app := app w; pending := remove_nth n (pending w);
                     calls := calls w; clock := clock w |} Hk) as [Hc Hp].
      rewrite Hc, Hp. simpl.
      split; [reflexivity |]. split.
      + intros Hn. now apply remove_nth_length.
      + intros Hn. apply nth_error_None in Hn. congruence.
    - split; [reflexivity |]. split; [| reflexivity].
      intros Hn. apply nth_error_None in Ek. lia. }
  split; [exact Hsettle |].
  intros e.
  assert (Hdefault :
    length (calls (if offered e (app w) then run (handler e (app w)) w else w))
    <= S (length (calls w))
    /\ length (pending (if offered e (app w) then run (handler e (app w)) w else w))
       - length (pending w)
       = length (calls (if offered e (app w) then run (handler e (app w)) w else w))
         - length (calls w)).
  { destruct (offered e (app w)); [| lia].
    destruct (run_one_shot (handler e (app w)) w (handler_one_shot e (app w)) Hq)
      as (H1 & H2 & _). now split. }
  destruct e; try exact Hdefault.
  - destruct (Hsettle n r) as (Hc & Hlt & Hge). rewrite Hc.
    split; [lia |].
    destruct (Nat.lt_ge_cases n (length (pending w))) as [Hn | Hn].
    + specialize (Hlt Hn). lia.
    + rewrite (Hge Hn). lia.
  - simpl. lia.
Qed.


(* ================================================================ *)
(** * Invariants of the page *)

(** X14. On schedules without overlap (every request is answered before
    anything else happens to the page) at most one handler is waiting, and
    whenever results are on display the selected index is inside them and
    the type is set; with no result the index is 0. *)
Theorem serial_schedule_keeps_index_and_type
  (w : World) (Hserial : serial w) :
  length (pending w) <= 1
  /\ (results (state (app w)) <> [] ->
      selectedIndex (state (app w)) < length (results (state (app w)))
      /\ type (state (app w)) <> None)
  /\ (results (state (app w)) = [] -> selectedIndex (state (app w)) = 0).
Proof.
  destruct (serial_well_formed w Hserial) as [Hwf Hsettle].
  destruct Hwf as (_ & Hidx & Htyped & _).
  split.
  { destruct Hsettle as [-> | (k & -> & _)]; simpl; lia. }
  split.
  - intros Hne. split; [| now apply Htyped].
    destruct Hidx as [Hlt | [He _]]; [exact Hlt | contradiction].
  - intros He. destruct Hidx as [Hlt | [_ Hz]]; [| exact Hz].
    rewrite He in Hlt. simpl in Hlt. lia.
Qed.

(** X15. Under any order of clicks and replies, overlapping requests
    included: an empty result list always comes with the index 0; and a
    click on any history item of the page shows one result slot, holding
    what the item stored as its generated text, selected, with the item's
    type, not loading and without error; the form is emptied but for the
    body, which becomes the item's summary; the snapshot is dropped and the
    feedback box closed, while the feedback text, isRevising, the history
    and the saved lists stay, no request is sent and a handler that waits
    keeps waiting. *)
Theorem history_item_opens_as_stored (w : World) (Hreach : reachable w) :
  (results (state (app w)) = [] -> selectedIndex (state (app w)) = 0)
  /\ forall n item,
       nth_error (history (app w)) n = Some item ->
       let w1 := step (Click_historyItem n) w in
       state (app w1)
       = {| isLoading := false; error := None;
            results := [generatedText item];
            selectedIndex := 0; type := Some (itemType item) |}
       /\ inputs (app w1)
          = {| recipientName := []; recipientRole := []; subject := [];
               body := originalText item |}
       /\ previousVersion (app w1) = None
       /\ showFeedbackInput (app w1) = false
       /\ (feedbackText (app w1), isRevising (app w1), history (app w1),
           savedData (app w1))
          = (feedbackText (app w), isRevising (app w), history (app w),
             savedData (app w))
       /\ calls w1 = calls w
       /\ length (pending w1) = length (pending w).
Proof.
  split; [exact (reachable_index_zero w Hreach) |].
  intros n item Hitem. cbv zeta.
  assert (Hoff : offered (Click_historyItem n) (app w) = true).
  { unfold offered. apply Nat.ltb_lt. apply nth_error_Some. congruence. }
  unfold step. rewrite Hoff. unfold handler. rewrite Hitem.
  unfold loadFromHistory. simpl. repeat split.
Qed.

(** X16. A generation reply that arrives late still takes over the page:
    with a credential and a valid form, whatever state [b] the page is in
    when the reply comes (a history item opened meanwhile, for instance),
    the resumed handler replaces the generation state by Ready or Failed of
    the generation, the same for every [b], and leaves the inputs, the saved
    lists and the revision state of [b] as they are. *)
Theorem late_generation_reply_overwrites
  (Hkey : truthy_opt apiKey = true)
  (w : World) (ty : DocumentType) (r : NetReply)
  (Hform : truthy (trim (body (inputs (app w)))) = true
           \/ truthy (trim (subject (inputs (app w)))) = true) :
  let w1 := run (handleGenerate (app w) ty) w in
  let after b := app (step (Settle (length (pending w)) r) (with_app w1 b)) in
  forall b,
    (Ready ty (state (after b)) \/ Failed (state (after b)))
    /\ state (after b) = state (after (app w))
    /\ (inputs (after b), savedData (after b), previousVersion (after b),
        feedbackText (after b), showFeedbackInput (after b), isRevising (after b))
       = (inputs b, savedData b, previousVersion b,
          feedbackText b, showFeedbackInput b, isRevising b).
Proof.
  cbv zeta. intros b.
  unfold handleGenerate. rewrite (form_guard_passes (app w) Hform).
  unfold generateDocument. rewrite Hkey. simpl.
  unfold step, with_app. simpl.
  rewrite !nth_error_app2, !Nat.sub_diag by lia. simpl.
  destruct r as [[text|]|e]; simpl;
    [destruct (truthy text); simpl;
       [destruct (JSON_parse text) as [[[|x parsed]|]|]; simpl |] | |].
  all: split; [| split; reflexivity].
  all: first [ left; repeat split; discriminate
             | right; repeat split; discriminate ].
Qed.


(* ================================================================ *)
(** * Export and history round trips *)

Lemma htmlContent_inj (s t : jsstring) : htmlContent s = htmlContent t -> s = t.
Proof.
  unfold htmlContent. intros H.
  apply app_inv_head in H. apply app_inv_tail in H.
  apply app_inv_head in H. now apply app_inv_tail in H.
Qed.

(** X18. The export offers a file exactly when the current result is a
    non-empty text; its name agrees with [handleDownloadWord] and is
    Letter.doc for a letter and Minutes.doc otherwise; it starts with a
    byte-order mark; the result is embedded as it is, without escaping, so
    the document is as long as the result plus a fixed frame, and two pages
    export the same parts only if their current results are the same
    text. *)
Theorem export_embeds_result_verbatim (a : App) :
  option_map fileName (downloadedFile a) = handleDownloadWord a
  /\ (downloadedFile a = None <-> truthy_opt (getCurrentResult (state a)) = false)
  /\ (forall d, downloadedFile a = Some d ->
        exists current,
          getCurrentResult (state a) = Some current
          /\ parts d = [[65279%N]; htmlContent current]
          /\ length (htmlContent current)
             = length (htmlContent []) + length current
          /\ (fileName d = lit "Letter.doc" <-> type (state a) = Some LETTER)
          /\ forall b d',
               downloadedFile b = Some d' -> parts d' = parts d ->
               getCurrentResult (state b) = Some current).
Proof.
  unfold downloadedFile, handleDownloadWord.
  destruct (getCurrentResult (state a)) as [current|] eqn:Hc; simpl.
  2: { split; [reflexivity |]. split; [split; reflexivity | discriminate]. }
  destruct (truthy current) eqn:Ht; simpl.
  2: { split; [reflexivity |]. split; [split; reflexivity | discriminate]. }
  split; [reflexivity |].
  split; [split; discriminate |].
  intros d [= <-]. exists current. simpl.
  split; [reflexivity |]. split; [reflexivity |].
  split.
  { unfold htmlContent. rewrite !length_app. simpl. lia. }
  split.
  { destruct (type (state a)) as [[|]|]; split; intros H;
      first [reflexivity | discriminate | (vm_compute in H; discriminate)]. }
  intros b d'.
  destruct (getCurrentResult (state b)) as [cb|]; [| discriminate].
  destruct (truthy cb); [| discriminate].
  intros [= <-]. cbn [parts]. intros H.
  assert (H' : htmlContent cb = htmlContent current).
  { set (x := htmlContent cb) in *. set (y := htmlContent current) in *.
    clearbody x y. now injection H. }
  apply htmlContent_inj in H'. now subst.
Qed.




End Nameh.

(* ================================================================== *)
(** * The code on concrete inputs *)

Example lit_ascii : lit "X" = [88%N].
Proof. reflexivity. Qed.

Example lit_persian : lit "نامه" = [1606; 1575; 1605; 1607]%N.
Proof. reflexivity. Qed.

Example trim_pads : trim (lit "  X  ") = lit "X".
Proof. reflexivity. Qed.

Example of_N_1700 : of_N 1700 = lit "1700".
Proof. reflexivity. Qed.

Example mock_parse_array :
  MockJSON.parse (MockJSON.stringify [lit "متن۱"; lit "متن۲"])
  = Some (JArray [lit "متن۱"; lit "متن۲"]).
Proof. reflexivity. Qed.

Example mock_parse_prose : MockJSON.parse (lit "فقط یک متن") = None.
Proof. reflexivity. Qed.

(** The first scenario of the specification: two variations come back,
    the first is selected and recorded in the history. *)
Example scenario_two_variations :
  let a := with_body (lit "لطفا لامپ را تعویض کنید") in
  let net := always (Resolved (Some (MockJSON.stringify [lit "متن۱"; lit "متن۲"]))) in
  let a1 := complete net 5 (handleGenerate demo_key MockJSON.parse a LETTER) a in
  results (state a1) = [Some (lit "متن۱"); Some (lit "متن۲")]
  /\ selectedIndex (state a1) = 0
  /\ map generatedText (history a1) = [Some (lit "متن۱")].
Proof. vm_compute. repeat split. Qed.

(** The second: a reply that is no JSON becomes the only variation. *)
Example scenario_fallback :
  let a := with_body (lit "x") in
  let net := always (Resolved (Some (lit "فقط یک متن"))) in
  let a1 := complete net 5 (handleGenerate demo_key MockJSON.parse a LETTER) a in
  results (state a1) = [Some (lit "فقط یک متن")].
Proof. vm_compute. reflexivity. Qed.

(** The third: without a credential the click ends in the error and no
    request is logged. *)
Example scenario_no_credential :
  let w := steps None MockJSON.parse
             [Change_input Body (lit "x"); Click_generate LETTER] initialWorld in
  error (state (app w)) = Some (lit "تنظیمات API Key یافت نشد.")
  /\ calls w = [] /\ length (pending w) = 0.
Proof. vm_compute. repeat split. Qed.

(** ** Instances of the theorems *)

Lemma generate_loads_then_settles_witness :
  (truthy (trim (body (inputs (with_body (lit "x"))))) = true
   \/ truthy (trim (subject (inputs (with_body (lit "x"))))) = true)
  /\ loads_then_settles demo_key MockJSON.parse
       (always (Resolved (Some (MockJSON.stringify [lit "a"; lit "b"])))) 0
       (with_body (lit "x")) LETTER.
Proof.
  split; [left; reflexivity |].
  apply (generate_loads_then_settles demo_key MockJSON.parse).
  left. reflexivity.
Defined.

(** C1, as stated. A body of one space is not empty, yet [handleGenerate]
    returns at its guard: the generation state is never written, so it does
    not become the loading state. *)
Lemma generate_ignores_whitespace_body :
  (body (inputs (with_body (lit " "))) <> []
   \/ subject (inputs (with_body (lit " "))) <> [])
  /\ state_writes (always (Resolved None)) 0
       (handleGenerate demo_key MockJSON.parse (with_body (lit " ")) LETTER)
       (state (with_body (lit " "))) = []
  /\ ~ loads_then_settles demo_key MockJSON.parse (always (Resolved None)) 0
         (with_body (lit " ")) LETTER.
Proof.
  split; [left; vm_compute; discriminate |].
  split; [reflexivity |].
  intros (final & Hw & _). vm_compute in Hw. discriminate.
Qed.

Lemma generate_guarded_witness :
  (isLoading (state (app (steps demo_key MockJSON.parse
      [Change_input Body (lit "x"); Click_generate LETTER] initialWorld))) = true
   \/ isRevising (app (steps demo_key MockJSON.parse
      [Change_input Body (lit "x"); Click_generate LETTER] initialWorld)) = true
   \/ (trim (body (inputs (app (steps demo_key MockJSON.parse
        [Change_input Body (lit "x"); Click_generate LETTER] initialWorld)))) = []
       /\ trim (subject (inputs (app (steps demo_key MockJSON.parse
        [Change_input Body (lit "x"); Click_generate LETTER] initialWorld)))) = []))
  /\ step demo_key MockJSON.parse (Click_generate MINUTES)
       (steps demo_key MockJSON.parse
          [Change_input Body (lit "x"); Click_generate LETTER] initialWorld)
     = steps demo_key MockJSON.parse
         [Change_input Body (lit "x"); Click_generate LETTER] initialWorld.
Proof.
  split; [left; reflexivity |].
  apply (generate_guarded demo_key MockJSON.parse).
  left. reflexivity.
Defined.

Lemma generateDocument_reply_witness :
  truthy_opt demo_key = true
  /\ resume (generateDocument demo_key MockJSON.parse initialInputs LETTER)
       (Resolved (Some (MockJSON.stringify [lit "a"; lit "b"; lit "c"])))
     = Ret [lit "a"; lit "b"; lit "c"]
  /\ resume (generateDocument demo_key MockJSON.parse initialInputs LETTER)
       (Resolved (Some (lit "plain text")))
     = Ret [lit "plain text"]
  /\ resume (generateDocument demo_key MockJSON.parse initialInputs LETTER)
       (Resolved None)
     = Throw (Error (lit "پاسخی از مدل دریافت نشد. لطفاً مجدد تلاش کنید.")).
Proof.
  split; [reflexivity |].
  destruct (generateDocument_reply demo_key MockJSON.parse eq_refl
              initialInputs LETTER) as (_ & Harray & Hraw & Hnone).
  split; [| split].
  - apply Harray; [reflexivity | reflexivity | discriminate].
  - apply Hraw; [reflexivity | left; reflexivity].
  - apply Hnone. reflexivity.
Defined.

Lemma missing_key_fails_fast_witness :
  truthy_opt None = false
  /\ generateDocument None MockJSON.parse initialInputs LETTER
     = Throw (Error (lit "تنظیمات API Key یافت نشد."))
  /\ reviseDocument None (lit "draft") (lit "shorter") LETTER
     = Throw (Error (lit "تنظیمات API Key یافت نشد."))
  /\ requests (always (Resolved None)) 0
       (generateDocument None MockJSON.parse initialInputs LETTER) = []
  /\ requests (always (Resolved None)) 0
       (reviseDocument None (lit "draft") (lit "shorter") LETTER) = [].
Proof.
  split; [reflexivity |].
  apply (missing_key_fails_fast None MockJSON.parse eq_refl).
Defined.

Lemma history_never_exceeds_ten_witness :
  reachable demo_key MockJSON.parse
    (steps demo_key MockJSON.parse overlap_failed_generation initialWorld)
  /\ length (history (app
       (steps demo_key MockJSON.parse overlap_failed_generation initialWorld)))
     <= 10.
Proof.
  split; [apply reachable_steps; constructor |].
  exact (proj1 (history_never_exceeds_ten demo_key MockJSON.parse _
                  (reachable_steps demo_key MockJSON.parse
                     overlap_failed_generation _
                     (reachable_init demo_key MockJSON.parse)))).
Defined.

Lemma saveItem_trims_and_dedupes_witness :
  let a1 := complete (always (Resolved None)) 0
              (saveItem initialApp Recipients (lit "  X  ")) initialApp in
  let a2 := complete (always (Resolved None)) 0
              (saveItem a1 Recipients (lit "X")) a1 in
  trim (lit "X") = trim (lit "  X  ")
  /\ a2 = a1
  /\ recipients (savedData a2) = [lit "X"].
Proof.
  cbv zeta.
  split; [reflexivity |].
  destruct (saveItem_trims_and_dedupes (always (Resolved None)) 0
              initialApp Recipients (lit "  X  ")) as (_ & _ & Hagain).
  cbv zeta in Hagain.
  rewrite (Hagain (lit "X") eq_refl).
  split; reflexivity.
Defined.

Lemma discard_restores_snapshot_witness :
  let net := always (Resolved (Some (lit "B, revised"))) in
  let a1 := complete net 0 (handleRevise demo_key two_drafts) two_drafts in
  let a2 := complete net 0 (handleDiscardRevision a1) a1 in
  outcome net 0 (reviseDocument demo_key (lit "B") (lit "shorter") LETTER)
  = inl (lit "B, revised")
  /\ getCurrentResult (state a1) = Some (lit "B, revised")
  /\ previousVersion a1 = Some (lit "B")
  /\ state a2 = state two_drafts
  /\ getCurrentResult (state a2) = Some (lit "B")
  /\ previousVersion a2 = None.
Proof.
  cbv zeta. split; [reflexivity |].
  apply (proj2 (discard_restores_snapshot demo_key
                  (always (Resolved (Some (lit "B, revised")))) 0)
           two_drafts (lit "B") (lit "B, revised") LETTER);
    reflexivity.
Defined.

Lemma revise_failure_keeps_snapshot_witness :
  let net := always (Rejected (Error (lit "503"))) in
  let a1 := complete net 0 (handleRevise demo_key two_drafts) two_drafts in
  outcome net 0 (reviseDocument demo_key (lit "B") (lit "shorter") LETTER)
  = inr (Error (lit "503"))
  /\ state a1 = with_error (state two_drafts) (Some (lit "503"))
  /\ isRevising a1 = false
  /\ previousVersion a1 = Some (lit "B")
  /\ results (state a1) = results (state two_drafts)
  /\ offered Click_discard a1 = true.
Proof.
  cbv zeta. split; [reflexivity |].
  destruct (revise_failure_keeps_snapshot demo_key
              (always (Rejected (Error (lit "503")))) 0
              two_drafts (lit "B") LETTER (Error (lit "503"))
              eq_refl eq_refl eq_refl eq_refl eq_refl)
    as (Hs & _ & Hr & Hp & Hres & _ & Hoff & _).
  cbv zeta in Hs, Hr, Hp, Hres, Hoff.
  repeat split; assumption.
Defined.

(** ** Requests still out while the page looks idle *)

(** C2, at the failing schedule. A generation is loading when the user
    opens a history item: that writes isLoading = false while the request
    is still out.  The generate buttons are on offer again, and a click
    then starts a second generation: the state changes to the loading
    state and a further request is sent, where the claim says that a
    generate made while a prior generation is loading changes nothing and
    sends nothing. *)
Theorem generate_runs_during_pending_generation :
  let w := steps demo_key MockJSON.parse generation_pending_after_history
             initialWorld in
  let w1 := step demo_key MockJSON.parse (Click_generate LETTER) w in
  reachable demo_key MockJSON.parse w
  /\ accepted demo_key MockJSON.parse
       (generation_pending_after_history ++ [Click_generate LETTER])
       initialWorld = true
  /\ length (pending w) = 1
  /\ map systemInstruction (calls w) = [LETTER; MINUTES]
  /\ isLoading (state (app w)) = false
  /\ isRevising (app w) = false
  /\ offered (Click_generate LETTER) (app w) = true
  /\ state (app w1) = loadingState LETTER
  /\ state (app w1) <> state (app w)
  /\ length (pending w1) = 2
  /\ map systemInstruction (calls w1) = [LETTER; MINUTES; LETTER].
Proof.
  cbv zeta.
  split; [apply reachable_steps; constructor |].
  split; [vm_compute; reflexivity |].
  split; [reflexivity |]. split; [vm_compute; reflexivity |].
  split; [reflexivity |]. split; [reflexivity |].
  split; [vm_compute; reflexivity |].
  split; [reflexivity |].
  split; [vm_compute; discriminate |].
  split; reflexivity.
Qed.

(** ** A discard after another tab was selected *)

(** C8, at the failing schedule, which has no overlap and needs the mouse
    only.  Of the two variations A and B the second is revised to B2; the
    user selects the first tab and discards.  The discard writes the
    snapshot B into the slot selected now: A is lost, and the revised
    slot keeps B2 instead of getting its text of before the revision back. *)
Theorem discard_after_tab_switch_overwrites_other_result :
  let w0 := steps demo_key MockJSON.parse (firstn 4 revise_second_tab)
              initialWorld in
  let w := steps demo_key MockJSON.parse revise_second_tab initialWorld in
  let w1 := steps demo_key MockJSON.parse discard_on_first_tab initialWorld in
  serial demo_key MockJSON.parse w1
  /\ accepted demo_key MockJSON.parse discard_on_first_tab initialWorld = true
  /\ (results (state (app w0)), selectedIndex (state (app w0)))
     = ([Some (lit "A"); Some (lit "B")], 1)
  /\ (results (state (app w)), selectedIndex (state (app w)),
      previousVersion (app w))
     = ([Some (lit "A"); Some (lit "B2")], 1, Some (lit "B"))
  /\ (results (state (app w1)), selectedIndex (state (app w1)),
      previousVersion (app w1))
     = ([Some (lit "B"); Some (lit "B2")], 0, None)
  /\ getCurrentResult (state (app w1)) <> array_get (results (state (app w0))) 0
  /\ array_get (results (state (app w1))) 1
     <> array_get (results (state (app w0))) 1.
Proof.
  cbv zeta.
  split.
  { apply serial_steps; [apply serial_init | vm_compute; reflexivity]. }
  split; [vm_compute; reflexivity |].
  split; [vm_compute; reflexivity |].
  split; [vm_compute; reflexivity |].
  split; [vm_compute; reflexivity |].
  split; vm_compute; discriminate.
Qed.

(** ** Overlapping requests *)

(** C6, at the failing schedule. A generation is in flight when the user
    opens a history item and asks for a revision of it; the generation
    answers with two variations, the second tab is selected, and then the
    revision answers.  Its handler writes the results of the render it was
    started in, which had one entry, under the index chosen since:
    results is non-empty and results[selectedIndex] is undefined. *)
Theorem stale_revision_leaves_selection_dangling :
  let w := steps demo_key MockJSON.parse overlap_tab_switch initialWorld in
  reachable demo_key MockJSON.parse w
  /\ accepted demo_key MockJSON.parse overlap_tab_switch initialWorld = true
  /\ results (state (app w)) = [Some (lit "r")]
  /\ selectedIndex (state (app w)) = 1
  /\ array_get (results (state (app w))) (selectedIndex (state (app w))) = None
  /\ ~ selection_valid (state (app w)).
Proof.
  cbv zeta.
  split; [apply reachable_steps; constructor |].
  split; [vm_compute; reflexivity |].
  split; [reflexivity |]. split; [reflexivity |]. split; [reflexivity |].
  intros [Hdefined _].
  destruct Hdefined as [v Hv]; [vm_compute; discriminate |].
  vm_compute in Hv. discriminate.
Qed.

(** C10, at the failing schedule. A generation is in flight when the user
    opens a history item (a letter) and asks for a revision of it; the
    generation fails, which clears results and type, and then the revision
    answers.  Its handler writes the results of the render it was started
    in over the cleared state: results is non-empty and type is null, and
    the export names the letter Minutes.doc. *)
Theorem stale_revision_leaves_results_untyped :
  let w := steps demo_key MockJSON.parse overlap_failed_generation initialWorld in
  reachable demo_key MockJSON.parse w
  /\ accepted demo_key MockJSON.parse overlap_failed_generation initialWorld
     = true
  /\ results (state (app w)) = [Some (lit "r")]
  /\ type (state (app w)) = None
  /\ ~ results_typed (state (app w))
  /\ map itemType (history (app w)) = [LETTER]
  /\ handleDownloadWord (app w) = Some (lit "Minutes.doc").
Proof.
  cbv zeta.
  split; [apply reachable_steps; constructor |].
  split; [vm_compute; reflexivity |].
  split; [reflexivity |]. split; [reflexivity |].
  split; [| split; reflexivity].
  intros Htyped. apply Htyped; [vm_compute; discriminate | reflexivity].
Qed.

(** ** Instances of the further properties *)

Lemma generateDocument_failure_policy_witness :
  truthy_opt demo_key = true
  /\ requests (always (Rejected no_message)) 0
       (generateDocument demo_key MockJSON.parse memo_plain LETTER)
     = [generation_request memo_plain LETTER]
  /\ resume (generateDocument demo_key MockJSON.parse memo_plain LETTER)
       (Rejected {| message := Some (lit "429") |})
     = Throw (Error (lit "429"))
  /\ resume (generateDocument demo_key MockJSON.parse memo_plain LETTER)
       (Rejected no_message)
     = Throw (Error (lit "خطایی در برقراری ارتباط با هوش مصنوعی رخ داد.")).
Proof.
  split; [reflexivity |].
  destruct (generateDocument_failure_policy demo_key MockJSON.parse eq_refl
              (always (Rejected no_message)) 0 memo_plain LETTER)
    as (Hone & Hmsg & Hnone).
  split; [exact Hone |].
  split; [exact (Hmsg (lit "429") eq_refl) | exact (Hnone no_message eq_refl)].
Defined.

Lemma reviseDocument_reply_witness :
  truthy_opt demo_key = true
  /\ requests (always (Resolved None)) 0
       (reviseDocument demo_key (lit "draft") (lit "shorter") MINUTES)
     = [revision_request (lit "draft") (lit "shorter") MINUTES]
  /\ resume (reviseDocument demo_key (lit "draft") (lit "shorter") MINUTES)
       (Resolved (Some (MockJSON.stringify [lit "a"; lit "b"])))
     = Ret (MockJSON.stringify [lit "a"; lit "b"])
  /\ resume (reviseDocument demo_key (lit "draft") (lit "shorter") MINUTES)
       (Resolved (Some []))
     = Throw (Error (lit "پاسخی از مدل دریافت نشد.")).
Proof.
  split; [reflexivity |].
  destruct (reviseDocument_reply demo_key eq_refl
              (always (Resolved None)) 0 (lit "draft") (lit "shorter") MINUTES)
    as (Hone & Htext & Hnone & _ & _).
  split; [exact Hone |].
  split; [exact (Htext (MockJSON.stringify [lit "a"; lit "b"]) eq_refl)
         | exact (Hnone (Some []) eq_refl)].
Defined.

Lemma minutes_request_uses_body_only_witness :
  body memo_plain = body memo_addressed
  /\ generation_request memo_plain MINUTES
     = generation_request memo_addressed MINUTES
  /\ generateDocument demo_key MockJSON.parse memo_plain MINUTES
     = generateDocument demo_key MockJSON.parse memo_addressed MINUTES.
Proof.
  split; [reflexivity |].
  exact (minutes_request_uses_body_only demo_key MockJSON.parse
           memo_plain memo_addressed eq_refl).
Defined.

Lemma empty_variation_is_inert_witness :
  truthy_opt (getCurrentResult (state blank_variation)) = false
  /\ handleCopy blank_variation = Ret tt
  /\ handleDownloadWord blank_variation = None
  /\ handleRevise demo_key blank_variation = Ret tt.
Proof.
  split; [reflexivity |].
  exact (empty_variation_is_inert demo_key blank_variation eq_refl).
Defined.

Lemma enabled_generate_starts_one_request_witness :
  truthy_opt demo_key = true
  /\ offered (Click_generate MINUTES) (app (world_of (with_body (lit "x")))) = true
  /\ state (app (step demo_key MockJSON.parse (Click_generate MINUTES)
                   (world_of (with_body (lit "x")))))
     = loadingState MINUTES.
Proof.
  split; [reflexivity |]. split; [reflexivity |].
  destruct (enabled_generate_starts_one_request demo_key MockJSON.parse eq_refl
              (world_of (with_body (lit "x"))) MINUTES eq_refl)
    as (Hstate & _).
  exact Hstate.
Defined.

Lemma save_then_remove_round_trip_witness :
  trim (lit " Dr. M ") <> []
  /\ ~ In (trim (lit " Dr. M ")) (saved Recipients (savedData initialApp))
  /\ complete (always (Resolved None)) 0
       (removeItem Recipients (trim (lit " Dr. M ")))
       (complete (always (Resolved None)) 0
          (saveItem initialApp Recipients (lit " Dr. M ")) initialApp)
     = initialApp.
Proof.
  assert (Hne : trim (lit " Dr. M ") <> []) by (vm_compute; discriminate).
  assert (Hnew : ~ In (trim (lit " Dr. M "))
                     (saved Recipients (savedData initialApp)))
    by (intros []).
  split; [exact Hne |]. split; [exact Hnew |].
  exact (proj1 (save_then_remove_round_trip (always (Resolved None)) 0
                  initialApp Recipients (lit " Dr. M ") Hne Hnew)).
Defined.

Lemma saved_lists_stay_clean_witness :
  reachable demo_key MockJSON.parse
    (steps demo_key MockJSON.parse
       [Change_input RecipientName (lit " Dr. M ");
        Click_save Recipients; Click_save Recipients] initialWorld)
  /\ NoDup (recipients (savedData (app
       (steps demo_key MockJSON.parse
          [Change_input RecipientName (lit " Dr. M ");
           Click_save Recipients; Click_save Recipients] initialWorld)))).
Proof.
  split; [apply reachable_steps; constructor |].
  exact (proj1 (saved_lists_stay_clean demo_key MockJSON.parse _
                  (reachable_steps demo_key MockJSON.parse
                     [Change_input RecipientName (lit " Dr. M ");
                      Click_save Recipients; Click_save Recipients] _
                     (reachable_init demo_key MockJSON.parse)))).
Defined.

Lemma replies_send_no_request_witness :
  reachable demo_key MockJSON.parse
    (steps demo_key MockJSON.parse overlap_prefix initialWorld)
  /\ calls (step demo_key MockJSON.parse (Settle 0 (Rejected no_message))
              (steps demo_key MockJSON.parse overlap_prefix initialWorld))
     = calls (steps demo_key MockJSON.parse overlap_prefix initialWorld).
Proof.
  split; [apply reachable_steps; constructor |].
  exact (proj1 (proj1 (replies_send_no_request demo_key MockJSON.parse _
                         (reachable_steps demo_key MockJSON.parse
                            overlap_prefix _
                            (reachable_init demo_key MockJSON.parse)))
                  0 (Rejected no_message))).
Defined.

Lemma serial_one_generation :
  serial demo_key MockJSON.parse
    (steps demo_key MockJSON.parse one_generation initialWorld).
Proof.
  apply serial_settle.
  apply serial_event; [| reflexivity].
  apply serial_event; [| reflexivity].
  apply serial_init.
Qed.

Lemma serial_schedule_keeps_index_and_type_witness :
  serial demo_key MockJSON.parse
    (steps demo_key MockJSON.parse one_generation initialWorld)
  /\ length (pending (steps demo_key MockJSON.parse one_generation initialWorld))
     <= 1.
Proof.
  split; [exact serial_one_generation |].
  exact (proj1 (serial_schedule_keeps_index_and_type demo_key MockJSON.parse _
                  serial_one_generation)).
Defined.

Lemma history_item_opens_as_stored_witness :
  reachable demo_key MockJSON.parse
    (steps demo_key MockJSON.parse overlap_failed_generation initialWorld)
  /\ (results (state (app
        (steps demo_key MockJSON.parse overlap_failed_generation initialWorld)))
      = [] ->
      selectedIndex (state (app
        (steps demo_key MockJSON.parse overlap_failed_generation initialWorld)))
      = 0).
Proof.
  split; [apply reachable_steps; constructor |].
  exact (proj1 (history_item_opens_as_stored demo_key MockJSON.parse _
                  (reachable_steps demo_key MockJSON.parse
                     overlap_failed_generation _
                     (reachable_init demo_key MockJSON.parse)))).
Defined.

Lemma generate_click_then_reply_witness :
  let w := steps demo_key MockJSON.parse (firstn 3 overlap_prefix)
             initialWorld in
  let w1 := run (handleGenerate demo_key MockJSON.parse (app w) MINUTES) w in
  let w2 := steps demo_key MockJSON.parse overlap_prefix initialWorld in
  let a2 := app (step demo_key MockJSON.parse
                   (Settle 0 (Resolved (Some (lit "h")))) w2) in
  truthy_opt demo_key = true
  /\ (truthy (trim (body (inputs (app w)))) = true
      \/ truthy (trim (subject (inputs (app w)))) = true)
  /\ nth_error (pending w2) 0 = nth_error (pending w1) (length (pending w))
  /\ (previousVersion (app w2), isRevising (app w2), feedbackText (app w2))
     = (Some (lit "g"), true, lit "f")
  /\ (inputs a2, savedData a2, copied a2, previousVersion a2,
      feedbackText a2, showFeedbackInput a2, isRevising a2)
     = (inputs (app w2), savedData (app w2), copied (app w2),
        previousVersion (app w2), feedbackText (app w2),
        showFeedbackInput (app w2), isRevising (app w2)).
Proof.
  cbv zeta.
  assert (Hform :
    truthy (trim (body (inputs (app (steps demo_key MockJSON.parse
      (firstn 3 overlap_prefix) initialWorld))))) = true
    \/ truthy (trim (subject (inputs (app (steps demo_key MockJSON.parse
      (firstn 3 overlap_prefix) initialWorld))))) = true)
    by (left; vm_compute; reflexivity).
  assert (Hn :
    nth_error
      (pending (steps demo_key MockJSON.parse overlap_prefix initialWorld)) 0
    = nth_error
        (pending
           (run (handleGenerate demo_key MockJSON.parse
                   (app (steps demo_key MockJSON.parse
                           (firstn 3 overlap_prefix) initialWorld)) MINUTES)
              (steps demo_key MockJSON.parse (firstn 3 overlap_prefix)
                 initialWorld)))
        (length (pending (steps demo_key MockJSON.parse
                            (firstn 3 overlap_prefix) initialWorld))))
    by (vm_compute; reflexivity).
  pose proof (generate_click_then_reply demo_key MockJSON.parse eq_refl
                (steps demo_key MockJSON.parse (firstn 3 overlap_prefix)
                   initialWorld)
                MINUTES Hform) as H.
  cbv zeta in H. destruct H as (_ & _ & _ & H).
  destruct (H (steps demo_key MockJSON.parse overlap_prefix initialWorld)
              0 (Resolved (Some (lit "h"))) Hn) as [Hkept _].
  split; [reflexivity |]. split; [exact Hform |]. split; [exact Hn |].
  split; [vm_compute; reflexivity | exact Hkept].
Defined.

Lemma revise_click_then_reply_witness :
  let w := steps demo_key MockJSON.parse (firstn 7 overlap_prefix)
             initialWorld in
  let w1 := run (handleRevise demo_key (app w)) w in
  let w2 := steps demo_key MockJSON.parse
              (overlap_prefix ++ [Settle 0 (Rejected no_message)])
              initialWorld in
  let a2 := app (step demo_key MockJSON.parse
                   (Settle 0 (Resolved (Some (lit "r")))) w2) in
  truthy_opt demo_key = true
  /\ getCurrentResult (state (app w)) = Some (lit "g")
  /\ truthy (lit "g") = true
  /\ type (state (app w)) = Some LETTER
  /\ truthy (trim (feedbackText (app w))) = true
  /\ truthy (lit "r") = true
  /\ nth_error (pending w2) 0 = nth_error (pending w1) (length (pending w))
  /\ results (state (app w2)) = []
  /\ length (results (state a2)) = length (results (state (app w))).
Proof.
  cbv zeta.
  assert (Hcur :
    getCurrentResult (state (app (steps demo_key MockJSON.parse
      (firstn 7 overlap_prefix) initialWorld))) = Some (lit "g"))
    by (vm_compute; reflexivity).
  assert (Hg : truthy (lit "g") = true) by (vm_compute; reflexivity).
  assert (Hty :
    type (state (app (steps demo_key MockJSON.parse
      (firstn 7 overlap_prefix) initialWorld))) = Some LETTER)
    by (vm_compute; reflexivity).
  assert (Hfeedback :
    truthy (trim (feedbackText (app (steps demo_key MockJSON.parse
      (firstn 7 overlap_prefix) initialWorld)))) = true)
    by (vm_compute; reflexivity).
  assert (Hr : truthy (lit "r") = true) by (vm_compute; reflexivity).
  assert (Hn :
    nth_error
      (pending (steps demo_key MockJSON.parse
                  (overlap_prefix ++ [Settle 0 (Rejected no_message)])
                  initialWorld)) 0
    = nth_error
        (pending
           (run (handleRevise demo_key
                   (app (steps demo_key MockJSON.parse
                           (firstn 7 overlap_prefix) initialWorld)))
              (steps demo_key MockJSON.parse (firstn 7 overlap_prefix)
                 initialWorld)))
        (length (pending (steps demo_key MockJSON.parse
                            (firstn 7 overlap_prefix) initialWorld))))
    by (vm_compute; reflexivity).
  pose proof (revise_click_then_reply demo_key MockJSON.parse eq_refl
                (steps demo_key MockJSON.parse (firstn 7 overlap_prefix)
                   initialWorld)
                (lit "g") (lit "r") LETTER Hcur Hg Hty Hfeedback Hr) as H.
  cbv zeta in H. destruct H as (_ & _ & H).
  destruct (H (steps demo_key MockJSON.parse
                 (overlap_prefix ++ [Settle 0 (Rejected no_message)])
                 initialWorld)
              0 Hn) as [Hlen _].
  split; [reflexivity |]. split; [exact Hcur |]. split; [exact Hg |].
  split; [exact Hty |]. split; [exact Hfeedback |]. split; [exact Hr |].
  split; [exact Hn |].
  split; [vm_compute; reflexivity | exact Hlen].
Defined.

Lemma late_generation_reply_overwrites_witness :
  truthy_opt demo_key = true
  /\ (truthy (trim (body (inputs (app (world_of (with_body (lit "x")))))))
      = true
      \/ truthy (trim (subject (inputs (app (world_of (with_body (lit "x")))))))
         = true)
  /\ state (app (step demo_key MockJSON.parse
                   (Settle (length (pending (world_of (with_body (lit "x")))))
                      (Rejected no_message))
                   (with_app
                      (run (handleGenerate demo_key MockJSON.parse
                              (app (world_of (with_body (lit "x")))) LETTER)
                         (world_of (with_body (lit "x"))))
                      two_drafts)))
     = state (app (step demo_key MockJSON.parse
                   (Settle (length (pending (world_of (with_body (lit "x")))))
                      (Rejected no_message))
                   (with_app
                      (run (handleGenerate demo_key MockJSON.parse
                              (app (world_of (with_body (lit "x")))) LETTER)
                         (world_of (with_body (lit "x"))))
                      (app (world_of (with_body (lit "x"))))))).
Proof.
  split; [reflexivity |]. split; [left; reflexivity |].
  destruct (late_generation_reply_overwrites demo_key MockJSON.parse eq_refl
              (world_of (with_body (lit "x"))) LETTER (Rejected no_message)
              (or_introl eq_refl) two_drafts)
    as (_ & Hsame & _).
  exact Hsame.
Defined.

Lemma revise_reply_failure_witness :
  truthy_opt demo_key = true
  /\ getCurrentResult (state (app (world_of two_drafts))) = Some (lit "B")
  /\ exists m,
       truthy m = true
       /\ app (step demo_key MockJSON.parse
                 (Settle (length (pending (world_of two_drafts)))
                    (Rejected no_message))
                 (with_app
                    (run (handleRevise demo_key (app (world_of two_drafts)))
                       (world_of two_drafts))
                    blank_variation))
          = apply (setIsRevising false)
              (apply (setState (fun prev => with_error prev (Some m)))
                 blank_variation).
Proof.
  split; [reflexivity |]. split; [reflexivity |].
  exact (revise_reply_failure demo_key MockJSON.parse
           (world_of two_drafts) blank_variation (Rejected no_message)
           (lit "B") LETTER eq_refl eq_refl eq_refl eq_refl eq_refl I).
Defined.

Lemma export_embeds_result_verbatim_witness :
  downloadedFile two_drafts
  = Some {| fileName := lit "Letter.doc";
            mimeType := lit "application/msword";
            parts := [[65279%N]; htmlContent (lit "B")] |}
  /\ option_map fileName (downloadedFile two_drafts)
     = handleDownloadWord two_drafts.
Proof.
  split; [reflexivity |].
  exact (proj1 (export_embeds_result_verbatim two_drafts)).
Defined.

